(** * OctoPrint push session: [PrinterStateConnection]

    A shallow embedding of [src/octoprint/server/util.py], class
    [PrinterStateConnection]: the three backlog buffers, the open/close
    hooks, the snapshot assembler [sendCurrentData] and the typed emitters
    that all go through [_emit].

    Python objects are modelled as follows.
    - Opaque payloads are [value]s.  A dict the caller keeps a reference to
      lives in a store ([heap]) and is passed around as [VRef l]; a dict
      literal built for one call and never aliased is an inline [VDict].
    - The session's three list fields are held by value: [sendCurrentData]
      swaps each list for a fresh one, so the drained list object is no
      longer reachable from the session.
    - Every call the session makes to a collaborator (logger, printer,
      gcode manager, timelapse module, event manager, SockJS transport) is
      appended to a call log; an oracle [raises] decides which of them
      raise.  A raised exception aborts the rest of the method and keeps
      every state change made before it, as in Python.
    - Each method body runs as one step: the mutexes only serialise the
      list swap/append against other threads and are not represented.

    The rest of the module is embedded as well: [redirectToTornado] and
    the Python string operations it uses, the WSGI middleware
    [ReverseProxied], [LargeResponseHandler.get] with its read loop, and
    the decorators [restricted_access] and [api_access].  What these read
    from flask, tornado, the operating system and the settings is passed
    in as data. *)

From Stdlib Require Import Ascii String.
From stdpp Require Import gmap strings list fin_maps pretty.
Set Warnings "-register-all".
Open Scope string_scope.
Open Scope list_scope.

(** ** Values and the dict store *)

Abbreviation loc := positive (only parsing).

Inductive value : Type :=
| VNone
| VBool (b : bool)
| VInt (n : Z)
| VStr (s : string)
| VList (xs : list value)
| VDict (d : gmap string value)
| VRef (l : loc).

Abbreviation dict := (gmap string value) (only parsing).

(** The mapping a value denotes: an inline dict, or the dict a reference
    points to.  [None] for everything that has no [update] method. *)
Definition as_dict (h : gmap loc dict) (v : value) : option dict :=
  match v with
  | VDict d => Some d
  | VRef l => h !! l
  | _ => None
  end.

(** [d.update(other)]: keys of [other] win, every other key of [d] stays. *)
Definition dict_update (d other : dict) : dict := other ∪ d.

(** ** Collaborators and the call log *)

Inductive producer : Type := Printer | GcodeManager | Timelapse.

(** The bound methods handed to [eventManager.subscribe]. *)
Inductive handler : Type :=
| onMovieDone | onSlicingStarted | onSlicingDone | onSlicingFailed.

#[global] Instance handler_eq_dec : EqDecision handler.
Proof. solve_decision. Defined.

Inductive call : Type :=
| LoggerInfo (msg : string)
| RegisterCallback (p : producer)
| UnregisterCallback (p : producer)
| Fire (event : string)
| Subscribe (event : string) (h : handler)
| Unsubscribe (event : string) (h : handler)
| NotifyCallbacks
| Send (frame : gmap string value).

Inductive exn : Type :=
| AttributeError (attr : string)
| CollaboratorError (c : call).

(** ** Session state and the world around it *)

Record session : Type := mkSession {
  temperatureBacklog : list value;
  logBacklog : list value;
  messageBacklog : list value
}.

Record world : Type := mkWorld {
  self : session;
  heap : gmap loc (gmap string value);
  calls : list call
}.

(** [__init__]: three empty backlogs. *)
Definition init_session : session := mkSession [] [] [].
Definition init_world : world := mkWorld init_session ∅ [].

Definition backlogs_empty (s : session) : Prop :=
  temperatureBacklog s = [] ∧ logBacklog s = [] ∧ messageBacklog s = [].

(** [info] as [on_open] uses it: the request headers and the peer address. *)
Record conn_info : Type := mkInfo {
  headers : gmap string string;
  ip : string
}.

(** ** State-and-exception monad *)

Inductive outcome (A : Type) : Type :=
| Return (a : A)
| Raise (e : exn).
Arguments Return {A} a.
Arguments Raise {A} e.

Definition py (A : Type) : Type := world → outcome A * world.

Definition ret {A} (a : A) : py A := fun w => (Return a, w).

Definition bind {A B} (m : py A) (k : A → py B) : py B :=
  fun w => match m w with
           | (Return a, w') => k a w'
           | (Raise e, w') => (Raise e, w')
           end.

Definition raise {A} (e : exn) : py A := fun w => (Raise e, w).

Declare Scope py_scope.
Delimit Scope py_scope with py.
Notation "x <- m ;; k" := (bind m (fun x => k))
  (at level 100, m at next level, right associativity) : py_scope.
Notation "m ;; k" := (bind m (fun _ => k))
  (at level 100, right associativity) : py_scope.
Open Scope py_scope.

Definition get_self : py session := fun w => (Return (self w), w).
Definition put_self (s : session) : py unit :=
  fun w => (Return tt, mkWorld s (heap w) (calls w)).
Definition get_heap : py (gmap loc (gmap string value)) :=
  fun w => (Return (heap w), w).
Definition put_heap (h : gmap loc (gmap string value)) : py unit :=
  fun w => (Return tt, mkWorld (self w) h (calls w)).
Definition record_call (c : call) : py unit :=
  fun w => (Return tt, mkWorld (self w) (heap w) (calls w ++ [c])).

(** The calls made between two worlds. *)
Definition calls_since (w w' : world) : list call :=
  drop (length (calls w)) (calls w').

(** [s.split(",")[0]] *)
Fixpoint before_comma (s : string) : string :=
  match s with
  | EmptyString => EmptyString
  | String c s' => if Ascii.eqb c ","%char then EmptyString else String c (before_comma s')
  end.

Definition _getRemoteAddress (info : conn_info) : string :=
  match headers info !! "X-Forwarded-For" with
  | Some forwardedFor => before_comma forwardedFor
  | None => ip info
  end.

Section Session.

(** [raises history c]: does collaborator call [c], made after the calls
    in [history], raise? *)
Variable raises : list call → call → bool.

(** The configuration of [octoprint.timelapse.current] ([VNone] when no
    timelapse is configured). *)
Variable timelapse_current : value.

(** A call into a collaborator: logged, then it returns or raises. *)
Definition extern (c : call) : py unit :=
  fun w =>
    let w' := mkWorld (self w) (heap w) (calls w ++ [c]) in
    if raises (calls w) c then (Raise (CollaboratorError c), w') else (Return tt, w').

(** [self._logger.info(msg)]; the logging module does not raise. *)
Definition logger_info (msg : string) : py unit := record_call (LoggerInfo msg).

(** [self.send({type: payload})] *)
Definition _emit (type : string) (payload : value) : py unit :=
  extern (Send {[ type := payload ]}).

(** [with mutex: xs = self._xBacklog; self._xBacklog = []] *)
Definition drain_temperatureBacklog : py (list value) :=
  s <- get_self ;;
  put_self (mkSession [] (logBacklog s) (messageBacklog s)) ;;
  ret (temperatureBacklog s).

Definition drain_logBacklog : py (list value) :=
  s <- get_self ;;
  put_self (mkSession (temperatureBacklog s) [] (messageBacklog s)) ;;
  ret (logBacklog s).

Definition drain_messageBacklog : py (list value) :=
  s <- get_self ;;
  put_self (mkSession (temperatureBacklog s) (logBacklog s) []) ;;
  ret (messageBacklog s).

(** [data.update(other)].  A referenced dict is changed in the store and
    [data] stays the same reference; an inline dict is replaced by the
    updated one; anything else has no [update] attribute. *)
Definition update (data : value) (other : gmap string value) : py value :=
  match data with
  | VRef l =>
      h <- get_heap ;;
      match h !! l with
      | Some d => put_heap (<[l := dict_update d other]> h) ;; ret (VRef l)
      | None => raise (AttributeError "update")
      end
  | VDict d => ret (VDict (dict_update d other))
  | _ => raise (AttributeError "update")
  end.

Definition sendCurrentData (data : value) : py unit :=
  temperatures <- drain_temperatureBacklog ;;
  logs <- drain_logBacklog ;;
  messages <- drain_messageBacklog ;;
  data <- update data {[ "temperatures" := VList temperatures;
                         "logs" := VList logs;
                         "messages" := VList messages ]} ;;
  _emit "current" data.

Definition sendHistoryData (data : value) : py unit :=
  _emit "history" data.

Definition sendUpdateTrigger (type payload : value) : py unit :=
  _emit "updateTrigger" (VDict {[ "type" := type; "payload" := payload ]}).

Definition sendFeedbackCommandOutput (name output : value) : py unit :=
  _emit "feedbackCommandOutput" (VDict {[ "name" := name; "output" := output ]}).

Definition sendTimelapseConfig (timelapseConfig : value) : py unit :=
  _emit "timelapse" timelapseConfig.

Definition addLog (data : value) : py unit :=
  s <- get_self ;;
  put_self (mkSession (temperatureBacklog s) (logBacklog s ++ [data]) (messageBacklog s)).

Definition addMessage (data : value) : py unit :=
  s <- get_self ;;
  put_self (mkSession (temperatureBacklog s) (logBacklog s) (messageBacklog s ++ [data])).

Definition addTemperature (data : value) : py unit :=
  s <- get_self ;;
  put_self (mkSession (temperatureBacklog s ++ [data]) (logBacklog s) (messageBacklog s)).

(** [sendUpdateTrigger("timelapseFiles")]: [payload] defaults to [None]. *)
Definition _onMovieDone (event payload : value) : py unit :=
  sendUpdateTrigger (VStr "timelapseFiles") VNone.

Definition _onSlicingStarted (event payload : value) : py unit :=
  sendUpdateTrigger (VStr "slicingStarted") payload.

Definition _onSlicingDone (event payload : value) : py unit :=
  sendUpdateTrigger (VStr "slicingDone") payload.

Definition _onSlicingFailed (event payload : value) : py unit :=
  sendUpdateTrigger (VStr "slicingFailed") payload.

(** Modelled from the spec: [octoprint.timelapse.notifyCallbacks] is not
    under src/.  The recording subsystem, asked for the current recording
    configuration, pushes it to the registered session as an immediate
    frame, that is, it calls the session's [sendTimelapseConfig]. *)
Definition timelapse_notifyCallbacks (timelapse : value) : py unit :=
  extern NotifyCallbacks ;;
  sendTimelapseConfig timelapse.

Definition on_open (info : conn_info) : py unit :=
  logger_info ("New connection from client: " +:+ _getRemoteAddress info) ;;
  extern (RegisterCallback Printer) ;;
  extern (RegisterCallback GcodeManager) ;;
  extern (RegisterCallback Timelapse) ;;
  extern (Fire "ClientOpened") ;;
  extern (Subscribe "MovieDone" onMovieDone) ;;
  extern (Subscribe "SlicingStarted" onSlicingStarted) ;;
  extern (Subscribe "SlicingDone" onSlicingDone) ;;
  extern (Subscribe "SlicingFailed" onSlicingFailed) ;;
  timelapse_notifyCallbacks timelapse_current.

Definition on_close : py unit :=
  logger_info "Closed client connection" ;;
  extern (UnregisterCallback Printer) ;;
  extern (UnregisterCallback GcodeManager) ;;
  extern (UnregisterCallback Timelapse) ;;
  extern (Fire "ClientClosed") ;;
  extern (Unsubscribe "MovieDone" onMovieDone) ;;
  extern (Unsubscribe "SlicingStarted" onSlicingStarted) ;;
  extern (Unsubscribe "SlicingDone" onSlicingDone) ;;
  extern (Unsubscribe "SlicingFailed" onSlicingFailed).

Definition on_message (message : value) : py unit := ret tt.

(** *** Entry points as data *)

(** What [eventManager] invokes when it delivers an event to a handler. *)
Definition run_handler (h : handler) (event payload : value) : py unit :=
  match h with
  | onMovieDone => _onMovieDone event payload
  | onSlicingStarted => _onSlicingStarted event payload
  | onSlicingDone => _onSlicingDone event payload
  | onSlicingFailed => _onSlicingFailed event payload
  end.

(** The producer callbacks that only buffer. *)
Inductive push : Type :=
| PushTemperature (data : value)
| PushLog (data : value)
| PushMessage (data : value).

Definition run_push (p : push) : py unit :=
  match p with
  | PushTemperature data => addTemperature data
  | PushLog data => addLog data
  | PushMessage data => addMessage data
  end.

Fixpoint run_pushes (ps : list push) : py unit :=
  match ps with
  | [] => ret tt
  | p :: ps' => run_push p ;; run_pushes ps'
  end.

(** Every method a collaborator or the transport can invoke. *)
Inductive op : Type :=
| Op_on_open (info : conn_info)
| Op_on_close
| Op_on_message (message : value)
| Op_sendCurrentData (data : value)
| Op_sendHistoryData (data : value)
| Op_sendUpdateTrigger (type payload : value)
| Op_sendFeedbackCommandOutput (name output : value)
| Op_sendTimelapseConfig (timelapseConfig : value)
| Op_push (p : push)
| Op_handler (h : handler) (event payload : value).

Definition run_op (o : op) : py unit :=
  match o with
  | Op_on_open info => on_open info
  | Op_on_close => on_close
  | Op_on_message message => on_message message
  | Op_sendCurrentData data => sendCurrentData data
  | Op_sendHistoryData data => sendHistoryData data
  | Op_sendUpdateTrigger type payload => sendUpdateTrigger type payload
  | Op_sendFeedbackCommandOutput name output => sendFeedbackCommandOutput name output
  | Op_sendTimelapseConfig timelapseConfig => sendTimelapseConfig timelapseConfig
  | Op_push p => run_push p
  | Op_handler h event payload => run_handler h event payload
  end.

(** A history of invocations, each made by its own caller: an exception
    ends the invocation that raised it, not the ones that follow. *)
Definition exec (ops : list op) (w : world) : world :=
  fold_left (fun w o => snd (run_op o w)) ops w.

(** [sendCurrentData] as the producer threads see it.  The three
    critical sections are separate, so other threads can push between
    them ([ps1], [ps2]) and between the last of them and the write
    ([ps3]). *)
Definition sendCurrentData_among (ps1 ps2 ps3 : list push) (data : value) : py unit :=
  temperatures <- drain_temperatureBacklog ;;
  run_pushes ps1 ;;
  logs <- drain_logBacklog ;;
  run_pushes ps2 ;;
  messages <- drain_messageBacklog ;;
  run_pushes ps3 ;;
  data <- update data {[ "temperatures" := VList temperatures;
                         "logs" := VList logs;
                         "messages" := VList messages ]} ;;
  _emit "current" data.

(** A straight line of collaborator calls. *)
Fixpoint run_steps (cs : list call) : py unit :=
  match cs with
  | [] => ret tt
  | c :: cs' => extern c ;; run_steps cs'
  end.

End Session.

(** ** Derived views of the state and of the call log *)

(** The world after the calls [cs] have been made and nothing else changed. *)
Definition with_calls (w : world) (cs : list call) : world :=
  mkWorld (self w) (heap w) (calls w ++ cs).

Definition pushed_temperatures (ps : list push) : list value :=
  omap (fun p => match p with PushTemperature d => Some d | _ => None end) ps.
Definition pushed_logs (ps : list push) : list value :=
  omap (fun p => match p with PushLog d => Some d | _ => None end) ps.
Definition pushed_messages (ps : list push) : list value :=
  omap (fun p => match p with PushMessage d => Some d | _ => None end) ps.

(** The session with the records of [ps] appended to the matching backlogs. *)
Definition pushed (ps : list push) (s : session) : session :=
  mkSession (temperatureBacklog s ++ pushed_temperatures ps)
            (logBacklog s ++ pushed_logs ps)
            (messageBacklog s ++ pushed_messages ps).

(** What [sendCurrentData] merges into [data]. *)
Definition backlog_dict (s : session) : gmap string value :=
  {[ "temperatures" := VList (temperatureBacklog s);
     "logs" := VList (logBacklog s);
     "messages" := VList (messageBacklog s) ]}.

(** The calls of [on_open] and [on_close], in program order. *)
Definition open_steps (timelapse_current : value) : list call :=
  [ RegisterCallback Printer; RegisterCallback GcodeManager; RegisterCallback Timelapse;
    Fire "ClientOpened";
    Subscribe "MovieDone" onMovieDone; Subscribe "SlicingStarted" onSlicingStarted;
    Subscribe "SlicingDone" onSlicingDone; Subscribe "SlicingFailed" onSlicingFailed;
    NotifyCallbacks; Send {[ "timelapse" := timelapse_current ]} ].

Definition open_calls (info : conn_info) (timelapse_current : value) : list call :=
  LoggerInfo ("New connection from client: " +:+ _getRemoteAddress info)
    :: open_steps timelapse_current.

Definition close_steps : list call :=
  [ UnregisterCallback Printer; UnregisterCallback GcodeManager; UnregisterCallback Timelapse;
    Fire "ClientClosed";
    Unsubscribe "MovieDone" onMovieDone; Unsubscribe "SlicingStarted" onSlicingStarted;
    Unsubscribe "SlicingDone" onSlicingDone; Unsubscribe "SlicingFailed" onSlicingFailed ].

Definition close_calls : list call :=
  LoggerInfo "Closed client connection" :: close_steps.

(** The unregister and unsubscribe calls among [close_steps]. *)
Definition cleanup_steps : list call :=
  [ UnregisterCallback Printer; UnregisterCallback GcodeManager; UnregisterCallback Timelapse;
    Unsubscribe "MovieDone" onMovieDone; Unsubscribe "SlicingStarted" onSlicingStarted;
    Unsubscribe "SlicingDone" onSlicingDone; Unsubscribe "SlicingFailed" onSlicingFailed ].

(** Wire framing: the frame tags, and a transport write that carries one
    top-level key drawn from them. *)
Definition frame_tags : list string :=
  [ "current"; "history"; "updateTrigger"; "feedbackCommandOutput"; "timelapse" ].

Definition wire_framed (c : call) : Prop :=
  match c with
  | Send frame => ∃ tag payload, tag ∈ frame_tags ∧ frame = {[ tag := payload ]}
  | _ => True
  end.

(** ** Orderings of the call log, after the wording of the lifecycle rules *)

Definition is_register (c : call) : bool :=
  match c with RegisterCallback _ => true | _ => false end.
Definition is_unregister (c : call) : bool :=
  match c with UnregisterCallback _ => true | _ => false end.
Definition is_subscribe (c : call) : bool :=
  match c with Subscribe _ _ => true | _ => false end.
Definition is_unsubscribe (c : call) : bool :=
  match c with Unsubscribe _ _ => true | _ => false end.
Definition is_fire (event : string) (c : call) : bool :=
  match c with Fire e => String.eqb e event | _ => false end.
Definition is_config_push (c : call) : bool :=
  match c with
  | NotifyCallbacks => true
  | Send frame => bool_decide (is_Some (frame !! "timelapse"))
  | _ => false
  end.

(** [all_before p q cs]: in [cs] no [p]-call comes after a [q]-call. *)
Fixpoint all_before (p q : call → bool) (cs : list call) : bool :=
  match cs with
  | [] => true
  | c :: cs' => (negb (q c) || negb (existsb p cs')) && all_before p q cs'
  end.

(** [in_order gs cs]: the groups [gs] occur in [cs] one after the other:
    no call of an earlier group comes after a call of a later one. *)
Fixpoint in_order (gs : list (call → bool)) (cs : list call) : bool :=
  match gs with
  | [] => true
  | g :: gs' => forallb (fun g' => all_before g g' cs) gs' && in_order gs' cs
  end.

(** "Unregister from every producer; unsubscribe from every bus topic;
    fire a client-closed bus event", in that order. *)
Definition close_order_as_specified (cs : list call) : bool :=
  in_order [is_unregister; is_unsubscribe; is_fire "ClientClosed"] cs.

(** "Register with every producer; subscribe to every bus topic; request
    and send the current recording configuration; fire a client-opened
    bus event", in that order. *)
Definition open_order_as_specified (cs : list call) : bool :=
  in_order [is_register; is_subscribe; is_config_push; is_fire "ClientOpened"] cs.

(** The envelope of the emit operations as the text words it: an object
    with a [type] field holding the tag and a [payload] field holding the
    value. *)
Definition type_payload_envelope (tag : string) (payload : value) : gmap string value :=
  {[ "type" := VStr tag; "payload" := payload ]}.

(** ** Event bus *)

Module EventBus.

(** Modelled from the spec: the event manager is not under src/.  Its
    contract: [subscribe] registers a (topic, handler) pair, [unsubscribe]
    removes that exact pair and is a no-op when it is absent, and an event
    published on a topic is delivered once to every handler subscribed to
    that topic. *)
Definition subscribe (topic : string) (h : handler)
    (subs : list (string * handler)) : list (string * handler) :=
  subs ++ [(topic, h)].

(** Modelled from the spec: the event manager's [unsubscribe], which
    removes the exact pair and does nothing when it is absent. *)
Definition unsubscribe (topic : string) (h : handler)
    (subs : list (string * handler)) : list (string * handler) :=
  filter (fun s => s ≠ (topic, h)) subs.

(** Modelled from the spec: the event manager's subscriber table after a
    log of calls that all returned, starting from no subscription. *)
Definition after (cs : list call) : list (string * handler) :=
  fold_left (fun subs c =>
               match c with
               | Subscribe topic h => subscribe topic h subs
               | Unsubscribe topic h => unsubscribe topic h subs
               | _ => subs
               end) cs [].

(** Modelled from the spec: the handlers the event manager holds for a
    topic, in subscription order. *)
Definition subscribed_to (topic : string) (subs : list (string * handler)) : list handler :=
  omap (fun s => if String.eqb (fst s) topic then Some (snd s) else None) subs.

(** Modelled from the spec: the event manager's delivery of a published
    event, one invocation [handler(event, payload)] per subscribed
    handler. *)
Definition publish (raises : list call → call → bool)
    (subs : list (string * handler)) (topic : string) (payload : value)
    (w : world) : world :=
  fold_left (fun w h => snd (run_handler raises h (VStr topic) payload w))
            (subscribed_to topic subs) w.

End EventBus.

(** ** Collaborator behaviours used in the examples *)

Definition never_raises : list call → call → bool := fun _ _ => false.

(** A dead connection: every transport write raises. *)
Definition dead_transport : list call → call → bool :=
  fun _ c => match c with Send _ => true | _ => false end.

(** The printer fails to unregister; everything else works. *)
Definition printer_unregister_fails : list call → call → bool :=
  fun _ c => match c with UnregisterCallback Printer => true | _ => false end.

Definition local_client : conn_info := mkInfo ∅ "127.0.0.1".
Definition proxied_client : conn_info :=
  mkInfo {[ "X-Forwarded-For" := "10.0.0.7, 192.168.1.1" ]} "127.0.0.1".

Definition sample : value := VDict {[ "t" := VInt 200 ]}.
Definition printing : gmap string value := {[ "state" := VStr "printing" ]}.

(** ** Python string operations *)

(** [s.startswith(prefix)] *)
Fixpoint startswith (s prefix : string) {struct prefix} : bool :=
  match prefix, s with
  | EmptyString, _ => true
  | String _ _, EmptyString => false
  | String a prefix', String b s' => Ascii.eqb a b && startswith s' prefix'
  end.

Fixpoint str_take (n : nat) (s : string) : string :=
  match n, s with
  | S n', String a s' => String a (str_take n' s')
  | _, _ => EmptyString
  end.

Fixpoint str_drop (n : nat) (s : string) : string :=
  match n, s with
  | S n', String _ s' => str_drop n' s'
  | _, _ => s
  end.

(** A slice bound as Python normalises it: a negative bound counts from
    the end, and the result is clamped to [0, len]. *)
Definition slice_bound (len i : Z) : nat :=
  Z.to_nat (if (i <? 0)%Z then Z.max 0 (i + len) else Z.min i len).

(** [s[:stop]] and [s[start:]] *)
Definition slice_to (s : string) (stop : Z) : string :=
  str_take (slice_bound (Z.of_nat (String.length s)) stop) s.
Definition slice_from (s : string) (start : Z) : string :=
  str_drop (slice_bound (Z.of_nat (String.length s)) start) s.

(** [s.find(sub)]: index of the first occurrence, [-1] when there is
    none.  [find_at s sub i] searches [s], which starts at index [i]. *)
Fixpoint find_at (s sub : string) (i : Z) : Z :=
  if startswith s sub then i
  else match s with
       | EmptyString => (-1)%Z
       | String _ s' => find_at s' sub (i + 1)
       end.
Definition find (s sub : string) : Z := find_at s sub 0.

(** [s.rfind(sub)]: index of the last occurrence, [-1] when there is none. *)
Fixpoint rfind_at (s sub : string) (i : Z) : Z :=
  match s with
  | EmptyString => if startswith s sub then i else (-1)%Z
  | String _ s' =>
      let later := rfind_at s' sub (i + 1) in
      if (0 <=? later)%Z then later
      else if startswith s sub then i else (-1)%Z
  end.
Definition rfind (s sub : string) : Z := rfind_at s sub 0.

(** [sub in s] *)
Definition contains (sub s : string) : bool := (0 <=? find s sub)%Z.

(** ** [redirectToTornado] *)

(** [index_url] is [url_for("index")]; the result is the URL handed to
    [redirect]. *)
Definition redirectToTornado (index_url : string) (requestUrl target : string) : string :=
  let appBaseUrl := slice_to requestUrl (find requestUrl (index_url +:+ "/ajax")) in
  let redirectUrl := appBaseUrl +:+ target in
  if contains "?" requestUrl
  then redirectUrl +:+ slice_from requestUrl (rfind requestUrl "?")
  else redirectUrl.

(** ** [ReverseProxied] *)

(** The two settings the middleware reads; [None] is an unset entry. *)
Record proxy_settings : Type := mkProxySettings {
  server_baseUrl : option string;
  server_scheme : option string
}.

(** Truth value of a setting or header: [None] and [""] are false. *)
Definition truthy (o : option string) : option string :=
  match o with
  | Some s => if String.eqb s "" then None else Some s
  | None => None
  end.

(** How [__call__] ends: the wrapped application is called with the
    (mutated) environ, or [environ['PATH_INFO']] raises [KeyError]. *)
Inductive wsgi_outcome : Type :=
| AppCalled (environ : gmap string string)
| KeyError (key : string).

(** The CGI-style entries the middleware reads and writes are strings
    (PEP 333); [environ] is the mapping restricted to string entries. *)
Definition ReverseProxied_call (settings : proxy_settings)
    (environ : gmap string string) : wsgi_outcome :=
  let script_name := Some (default "" (environ !! "HTTP_X_SCRIPT_NAME")) in
  let script_name :=
    match truthy script_name with
    | None => server_baseUrl settings
    | Some _ => script_name
    end in
  let rewritten :=
    match truthy script_name with
    | Some script_name =>
        let environ := <["SCRIPT_NAME" := script_name]> environ in
        match environ !! "PATH_INFO" with
        | None => inl "PATH_INFO"
        | Some path_info =>
            if startswith path_info script_name
            then inr (<["PATH_INFO" :=
                         slice_from path_info (Z.of_nat (String.length script_name))]> environ)
            else inr environ
        end
    | None => inr environ
    end in
  match rewritten with
  | inl key => KeyError key
  | inr environ =>
      let scheme := Some (default "" (environ !! "HTTP_X_SCHEME")) in
      let scheme :=
        match truthy scheme with
        | None => server_scheme settings
        | Some _ => scheme
        end in
      match truthy scheme with
      | Some scheme => AppCalled (<["wsgi.url_scheme" := scheme]> environ)
      | None => AppCalled environ
      end
  end.

(** ** Records carried by "current" frames *)





(** ** [LargeResponseHandler] *)

Definition CHUNK_SIZE : nat := 16 * 1024.

(** [s.endswith(suffix)] *)
Definition endswith (s suffix : string) : bool :=
  (String.length suffix <=? String.length s)%nat
  && String.eqb (str_drop (String.length s - String.length suffix) s) suffix.

(** A header value: a [datetime] (as seconds), a string or a number. *)
Inductive header_value : Type :=
| HDate (t : Z)
| HText (s : string)
| HNum (n : Z).

(** What the handler does to the response. *)
Inductive action : Type :=
| set_header (name : string) (v : header_value)
| set_status (code : Z)
| redirect (url : string)
| write (data : string)
| flush.

(** [HTTPError(status)] or [HTTPError(status, fmt, arg)], the failed
    [assert], the [TypeError] of [time.mktime(None)] and the [IOError] of
    [open]. *)
Inductive get_exn : Type :=
| HTTPError (status : Z) (log_message : option (string * string))
| AssertionError
| TypeError
| IOError.

Inductive get_outcome : Type :=
| Returned
| Raised (e : get_exn).

(** Everything [get] reads from outside itself: handler fields, the
    request, and the results of the library calls it makes.  Times are in
    seconds; [datetime.fromtimestamp] is taken to be monotone. *)
Record static_env : Type := mkStaticEnv {
  root : string;
  default_filename : option string;
  _as_attachment : bool;
  sep : string;
  parse_url_path : string → string;
  abspath_join : string → string → string;
  path_join : string → string → string;
  isdir : string → bool;
  exists_ : string → bool;
  isfile : string → bool;
  st_mtime : string → Z;
  st_size : string → Z;
  guess_type : string → option string;
  get_cache_time : string → Z → option string → Z;
  utcnow : Z;
  request_path : string;
  request_method : string;
  if_modified_since : option string;
  mktime_parsedate : string → option Z;
  open_rb : string → option string
}.

(** [set_extra_headers] *)
Definition set_extra_headers (env : static_env) (path : string) : list action :=
  if _as_attachment env then [set_header "Content-Disposition" (HText "attachment")] else [].

(** The read loop: [file.read(CHUNK_SIZE)] until it returns no data, each
    chunk written and flushed.  [file] is what is left to read; every
    round with data consumes at least one byte, so [fuel] above the file
    length is never used up. *)
Fixpoint send_chunks (fuel : nat) (file : string) : list action :=
  match fuel with
  | 0 => []
  | S fuel' =>
      let data := str_take CHUNK_SIZE file in
      if String.eqb data "" then []
      else write data :: flush :: send_chunks fuel' (str_drop CHUNK_SIZE file)
  end.

Definition get (env : static_env) (path : string) (include_body : bool)
    : list action * get_outcome :=
  let path := parse_url_path env path in
  let abspath := abspath_join env (root env) path in
  if negb (startswith (abspath +:+ sep env) (root env))
  then ([], Raised (HTTPError 403 (Some ("%s is not in root static directory", path))))
  else
    let located :=
      match default_filename env with
      | Some default_filename =>
          if isdir env abspath
          then if negb (endswith (request_path env) "/")
               then inl (request_path env +:+ "/")
               else inr (path_join env abspath default_filename)
          else inr abspath
      | None => inr abspath
      end in
    match located with
    | inl url => ([redirect url], Returned)
    | inr abspath =>
        if negb (exists_ env abspath) then ([], Raised (HTTPError 404 None))
        else if negb (isfile env abspath)
        then ([], Raised (HTTPError 403 (Some ("%s is not a file", path))))
        else
          let modified := st_mtime env abspath in
          let mime_type := guess_type env abspath in
          let cache_time := get_cache_time env path modified mime_type in
          let headers :=
            [set_header "Last-Modified" (HDate modified)]
            ++ match truthy mime_type with
               | Some mime_type => [set_header "Content-Type" (HText mime_type)]
               | None => []
               end
            ++ (if (0 <? cache_time)%Z
                then [set_header "Expires" (HDate (utcnow env + cache_time));
                      set_header "Cache-Control" (HText ("max-age=" +:+ pretty cache_time))]
                else [])
            ++ set_extra_headers env path in
          let body :=
            if negb include_body
            then if String.eqb (request_method env) "HEAD"
                 then (headers ++ [set_header "Content-Length" (HNum (st_size env abspath))],
                       Returned)
                 else (headers, Raised AssertionError)
            else match open_rb env abspath with
                 | Some file =>
                     (headers ++ send_chunks (S (String.length file)) file, Returned)
                 | None => (headers, Raised IOError)
                 end in
          match if_modified_since env with
          | Some ims_value =>
              match mktime_parsedate env ims_value with
              | Some if_since =>
                  if (modified <=? if_since)%Z
                  then (headers ++ [set_status 304], Returned)
                  else body
              | None => (headers, Raised TypeError)
              end
          | None => body
          end
    end.

(** The bytes a response body is made of. *)
Fixpoint written (acts : list action) : string :=
  match acts with
  | [] => ""
  | write data :: acts' => data +:+ written acts'
  | _ :: acts' => written acts'
  end.


(** A response body sent in chunks: every [write] carries between one and
    [CHUNK_SIZE] bytes and is directly followed by a [flush]. *)
Fixpoint well_chunked (acts : list action) : Prop :=
  match acts with
  | [] => True
  | write data :: acts' =>
      (0 < String.length data ≤ CHUNK_SIZE)%nat ∧
      match acts' with
      | flush :: _ => well_chunked acts'
      | _ => False
      end
  | _ :: acts' => well_chunked acts'
  end.

Definition is_write (a : action) : bool :=
  match a with write _ => true | _ => false end.

(** A header other than [Content-Length]. *)
Definition plain_header (a : action) : Prop :=
  match a with
  | set_header name _ => name ≠ "Content-Length"
  | _ => False
  end.

(** ** [restricted_access] and [api_access] *)

(** What the decorators log a request in as: [ApiUser()] or a user found
    by [userManager.findUser]. *)
Inductive user : Type :=
| ApiUser
| StoredUser (id : string).

Record user_manager : Type := mkUserManager {
  hasBeenCustomized : bool;
  findUser : string → option user
}.

(** Everything the decorated views read from outside: the settings, the
    server's user manager (possibly [None]), [request.values], and what
    flask-login's [login_user(user, remember=False)] answers for a user or
    for [None] ([None] as answer: the call raises). *)
Record access_env : Type := mkAccessEnv {
  firstRun : bool;
  userManager : option user_manager;
  api_enabled : bool;
  api_key : option string;
  request_values : gmap string string;
  login_user : option user → option bool
}.

Inductive access_exn : Type :=
| NoneHasNoAttribute (attr : string)
| BadRequestKey (key : string)
| LoginUserRaised.

(** How a decorated view ends: with a response of its own, with the
    wrapped view called on the caller's arguments for a logged-in user,
    with the wrapped view called on the packed arguments
    ([func(args, kwargs)]), handed to [login_required], or with an
    exception. *)
Inductive access_outcome : Type :=
| Respond (body : string) (status : Z)
| CallView (identity : user)
| CallViewPacked
| LoginRequired
| AccessRaised (e : access_exn).

(** The first component lists the responses built with [make_response]
    and not returned. *)
Definition restricted_access (apiEnabled : bool) (env : access_env)
    : list (string * Z) * access_outcome :=
  if firstRun env
     && match userManager env with
        | None => true
        | Some um => negb (hasBeenCustomized um)
        end
  then ([], Respond "OctoPrint isn't setup yet" 403)
  else
    match (if api_enabled env && apiEnabled then request_values env !! "apikey" else None) with
    | Some apikey =>
        let looked_up :=
          if decide (Some apikey = api_key env) then inr (Some ApiUser)
          else match userManager env with
               | Some um => inr (findUser um apikey)
               | None => inl (NoneHasNoAttribute "findUser")
               end in
        match looked_up with
        | inl e => ([], AccessRaised e)
        | inr user =>
            let dropped :=
              match user with
              | None => [("Invalid API key", 403%Z)]
              | Some _ => []
              end in
            match login_user env user with
            | Some true =>
                match user with
                | Some u => (dropped, CallView u)
                | None => (dropped, AccessRaised (NoneHasNoAttribute "get_id"))
                end
            | Some false => (dropped, LoginRequired)
            | None => (dropped, AccessRaised LoginUserRaised)
            end
        end
    | None => ([], LoginRequired)
    end.

Definition api_access (env : access_env) : list (string * Z) * access_outcome :=
  let disabled := if api_enabled env then [] else [("API disabled", 401%Z)] in
  match request_values env !! "apikey" with
  | None =>
      (disabled ++ [("No API key provided", 401%Z)], AccessRaised (BadRequestKey "apikey"))
  | Some apikey =>
      let invalid :=
        if decide (Some apikey = api_key env) then [] else [("Invalid API key", 403%Z)] in
      (disabled ++ invalid, CallViewPacked)
  end.

(** ** Environments used in the examples *)

(** A static handler rooted at "/srv/uploads" that holds one file,
    "a.gcode", three bytes long and last modified at time 1000. *)
Definition one_file_env (method : string) (ims : option string) : static_env :=
  {| root := "/srv/uploads";
     default_filename := None;
     _as_attachment := true;
     sep := "/";
     parse_url_path := fun p => p;
     abspath_join := fun a b => a +:+ "/" +:+ b;
     path_join := fun a b => a +:+ "/" +:+ b;
     isdir := fun _ => false;
     exists_ := fun p => String.eqb p "/srv/uploads/a.gcode";
     isfile := fun p => String.eqb p "/srv/uploads/a.gcode";
     st_mtime := fun _ => 1000%Z;
     st_size := fun _ => 3%Z;
     guess_type := fun _ => None;
     get_cache_time := fun _ _ _ => 0%Z;
     utcnow := 2000%Z;
     request_path := "/downloads/a.gcode";
     request_method := method;
     if_modified_since := ims;
     mktime_parsedate := fun v => if String.eqb v "later" then Some 1500%Z else None;
     open_rb := fun _ => Some "G28" |}.

(** A server past first run whose user manager knows the key "k-alice";
    the master key is "master"; [login_user] accepts every user and
    answers false for [None]. *)
Definition sample_access_env (values : gmap string string) (enabled : bool) : access_env :=
  {| firstRun := false;
     userManager :=
       Some (mkUserManager true
               (fun k => if String.eqb k "k-alice" then Some (StoredUser "alice") else None));
     api_enabled := enabled;
     api_key := Some "master";
     request_values := values;
     login_user := fun u => Some (bool_decide (is_Some u)) |}.


(** ** Specifications of computations by the calls they add *)

(** [appends P m]: from any world, [m] only adds calls to the log, and
    each added call satisfies [P]. *)
Definition appends {A} (P : call → Prop) (m : py A) : Prop :=
  ∀ w, ∃ new, calls (snd (m w)) = calls w ++ new ∧ Forall P new.

(** * Facts *)

(** Membership in a list that is written out: by cases on the position. *)
Ltac cases_of_elem H :=
  repeat (apply elem_of_cons in H as [H|H]; [try discriminate H; try injection H as ?; subst|]);
  try (by apply elem_of_nil in H).
Ltac elem_of_concrete :=
  repeat first [ apply list_elem_of_here | apply list_elem_of_further ].

Lemma with_calls_nil w : with_calls w [] = w.
Proof. destruct w; unfold with_calls; simpl. by rewrite app_nil_r. Qed.

Lemma with_calls_app w cs cs' :
  with_calls (with_calls w cs) cs' = with_calls w (cs ++ cs').
Proof. unfold with_calls; simpl. by rewrite app_assoc. Qed.

Lemma calls_since_with_calls w cs : calls_since w (with_calls w cs) = cs.
Proof. unfold calls_since, with_calls; simpl. apply drop_app_length. Qed.

Section Facts.

Context (raises : list call → call → bool) (timelapse_current : value).

Lemma extern_run c w :
  extern raises c w =
    (if raises (calls w) c then Raise (CollaboratorError c) else Return tt,
     with_calls w [c]).
Proof. unfold extern, with_calls. by destruct (raises _ _). Qed.

(** *** Straight lines of collaborator calls *)

Lemma run_steps_return cs : ∀ w,
  (∀ done c rest, cs = done ++ c :: rest → raises (calls w ++ done) c = false) →
  run_steps raises cs w = (Return tt, with_calls w cs).
Proof.
  induction cs as [|c cs IH]; intros w Hok; simpl.
  - by rewrite with_calls_nil.
  - unfold bind. rewrite extern_run.
    specialize (Hok [] c cs eq_refl) as Hc. rewrite app_nil_r in Hc. rewrite Hc.
    rewrite IH.
    + by rewrite with_calls_app.
    + intros done c' rest ->. simpl. rewrite <- app_assoc.
      by apply (Hok (c :: done) c' rest).
Qed.

Lemma run_steps_raise cs : ∀ w e w',
  run_steps raises cs w = (Raise e, w') →
  ∃ done c rest,
    cs = done ++ c :: rest ∧ e = CollaboratorError c ∧
    raises (calls w ++ done) c = true ∧ w' = with_calls w (done ++ [c]).
Proof.
  induction cs as [|c cs IH]; intros w e w'; simpl.
  - unfold ret. intros [=].
  - unfold bind. rewrite extern_run.
    destruct (raises (calls w) c) eqn:Hc.
    + intros [= <- <-]. exists [], c, cs. by rewrite app_nil_r.
    + intros Hrun. apply IH in Hrun as (done & c' & rest & -> & -> & Hr & ->).
      exists (c :: done), c', rest. repeat split.
      * simpl in Hr. by rewrite <- app_assoc in Hr.
      * by rewrite with_calls_app.
Qed.

Lemma run_steps_return_inv cs w w' :
  run_steps raises cs w = (Return tt, w') → w' = with_calls w cs.
Proof.
  revert w. induction cs as [|c cs IH]; intros w; simpl.
  - unfold ret. intros [= <-]. by rewrite with_calls_nil.
  - unfold bind. rewrite extern_run. destruct (raises (calls w) c); [intros [=]|].
    intros Hrun. apply IH in Hrun as ->. by rewrite with_calls_app.
Qed.

Lemma run_steps_prefix cs : ∀ w,
  ∃ n, snd (run_steps raises cs w) = with_calls w (take n cs).
Proof.
  induction cs as [|c cs IH]; intros w; simpl.
  - exists 0. by rewrite with_calls_nil.
  - unfold bind. rewrite extern_run. destruct (raises (calls w) c).
    + by exists 1.
    + destruct (IH (with_calls w [c])) as [n Hn]. exists (S n).
      by rewrite Hn, with_calls_app.
Qed.

Lemma on_close_steps w :
  on_close raises w =
    run_steps raises close_steps (with_calls w [LoggerInfo "Closed client connection"]).
Proof.
  unfold on_close, close_steps, run_steps, logger_info, record_call.
  unfold bind at 1. fold (with_calls w [LoggerInfo "Closed client connection"]).
  generalize (with_calls w [LoggerInfo "Closed client connection"]) as w0. intros w0.
  unfold bind, ret. rewrite !extern_run.
  repeat match goal with
         | |- context [raises ?h ?c] => destruct (raises h c)
         end; reflexivity.
Qed.

Lemma on_open_steps info w :
  on_open raises timelapse_current info w =
    run_steps raises (open_steps timelapse_current)
      (with_calls w [LoggerInfo ("New connection from client: " +:+ _getRemoteAddress info)]).
Proof.
  unfold on_open, open_steps, run_steps, logger_info, record_call.
  unfold timelapse_notifyCallbacks, sendTimelapseConfig, _emit.
  unfold bind at 1.
  fold (with_calls w [LoggerInfo ("New connection from client: " +:+ _getRemoteAddress info)]).
  generalize (with_calls w [LoggerInfo ("New connection from client: " +:+ _getRemoteAddress info)]) as w0.
  intros w0. unfold bind, ret. rewrite !extern_run.
  repeat match goal with
         | |- context [raises ?h ?c] => destruct (raises h c)
         end; reflexivity.
Qed.

(** *** Emitters *)

Lemma _emit_run (type : string) (payload : value) (w : world) :
  _emit raises type payload w =
    (if raises (calls w) (Send {[ type := payload ]})
     then Raise (CollaboratorError (Send {[ type := payload ]}))
     else Return tt,
     with_calls w [Send {[ type := payload ]}]).
Proof. unfold _emit. apply extern_run. Qed.

(** C5 (as amended): [_emit] makes exactly one transport write,
    [send({type: payload})], and nothing else: no handler surrounds the
    write and nothing is logged.  When the write raises, that exception is
    the outcome of [_emit] and reaches the caller; when it returns, [_emit]
    returns. *)
Theorem _emit_propagates_transport_failure (type : string) (payload : value) (w : world) :
  _emit raises type payload w =
    (if raises (calls w) (Send {[ type := payload ]})
     then Raise (CollaboratorError (Send {[ type := payload ]}))
     else Return tt,
     with_calls w [Send {[ type := payload ]}]).
Proof.
  unfold _emit, extern, with_calls.
  by destruct (raises (calls w) (Send {[ type := payload ]})).
Qed.

(** C6 (as amended): each of [sendHistoryData], [sendUpdateTrigger],
    [sendFeedbackCommandOutput] and [sendTimelapseConfig] makes exactly one
    write and changes nothing else, so the backlogs are neither read nor
    modified.  The object written has the single key [<tag>]: for history
    and timelapse it maps to the argument itself, for updateTrigger to
    [{"type": type, "payload": payload}], and for feedbackCommandOutput to
    [{"name": name, "output": output}]. *)
Theorem pass_through_emitters_write_one_tagged_frame
    (data type payload name output timelapseConfig : value) (w : world) :
  snd (sendHistoryData raises data w)
    = with_calls w [Send {[ "history" := data ]}] ∧
  snd (sendUpdateTrigger raises type payload w)
    = with_calls w [Send {[ "updateTrigger" :=
                              VDict {[ "type" := type; "payload" := payload ]} ]}] ∧
  snd (sendFeedbackCommandOutput raises name output w)
    = with_calls w [Send {[ "feedbackCommandOutput" :=
                              VDict {[ "name" := name; "output" := output ]} ]}] ∧
  snd (sendTimelapseConfig raises timelapseConfig w)
    = with_calls w [Send {[ "timelapse" := timelapseConfig ]}].
Proof.
  unfold sendHistoryData, sendUpdateTrigger, sendFeedbackCommandOutput, sendTimelapseConfig.
  by rewrite !_emit_run.
Qed.

(** *** Lifecycle hooks *)

Lemma on_close_return_inv w w' :
  on_close raises w = (Return tt, w') → w' = with_calls w close_calls.
Proof.
  rewrite on_close_steps. intros ->%run_steps_return_inv. by rewrite with_calls_app.
Qed.

Lemma on_open_return_inv info w w' :
  on_open raises timelapse_current info w = (Return tt, w') →
  w' = with_calls w (open_calls info timelapse_current).
Proof.
  rewrite on_open_steps. intros ->%run_steps_return_inv. by rewrite with_calls_app.
Qed.

Lemma close_steps_NoDup : NoDup close_steps.
Proof.
  unfold close_steps.
  repeat (apply NoDup_cons_2; [intros Hin; cases_of_elem Hin|]).
  apply NoDup_nil_2.
Qed.

Lemma close_steps_no_log msg : LoggerInfo msg ∉ close_steps.
Proof. unfold close_steps. intros Hin. cases_of_elem Hin. Qed.

(** C2 (as amended): when none of its calls raises, [on_close] performs,
    in this order: unregister from the printer, the gcode manager and the
    timelapse subsystem; fire "ClientClosed"; and only then unsubscribe
    from "MovieDone", "SlicingStarted", "SlicingDone" and "SlicingFailed".
    The event is fired after every unregister and before every
    unsubscribe. *)
Theorem on_close_call_order (w : world) :
  (∀ h c, c ∈ close_steps → raises h c = false) →
  on_close raises w =
    (Return tt,
     with_calls w
       [ LoggerInfo "Closed client connection";
         UnregisterCallback Printer; UnregisterCallback GcodeManager;
         UnregisterCallback Timelapse;
         Fire "ClientClosed";
         Unsubscribe "MovieDone" onMovieDone;
         Unsubscribe "SlicingStarted" onSlicingStarted;
         Unsubscribe "SlicingDone" onSlicingDone;
         Unsubscribe "SlicingFailed" onSlicingFailed ]).
Proof.
  intros Hok. rewrite on_close_steps, run_steps_return.
  - by rewrite with_calls_app.
  - intros done c rest Hsplit. apply Hok. rewrite Hsplit.
    apply elem_of_app. right. apply list_elem_of_here.
Qed.

(** C3 (as amended): when none of its calls raises, [on_open] performs, in
    this order: register with the printer, the gcode manager and the
    timelapse subsystem; fire "ClientOpened"; subscribe to "MovieDone",
    "SlicingStarted", "SlicingDone" and "SlicingFailed"; and last ask the
    timelapse subsystem for the current configuration, which is sent as an
    immediate "timelapse" frame. *)
Theorem on_open_call_order (info : conn_info) (w : world) :
  (∀ h c, c ∈ open_steps timelapse_current → raises h c = false) →
  on_open raises timelapse_current info w =
    (Return tt,
     with_calls w
       [ LoggerInfo ("New connection from client: " +:+ _getRemoteAddress info);
         RegisterCallback Printer; RegisterCallback GcodeManager;
         RegisterCallback Timelapse;
         Fire "ClientOpened";
         Subscribe "MovieDone" onMovieDone;
         Subscribe "SlicingStarted" onSlicingStarted;
         Subscribe "SlicingDone" onSlicingDone;
         Subscribe "SlicingFailed" onSlicingFailed;
         NotifyCallbacks;
         Send {[ "timelapse" := timelapse_current ]} ]).
Proof.
  intros Hok. rewrite on_open_steps, run_steps_return.
  - by rewrite with_calls_app.
  - intros done c rest Hsplit. apply Hok. rewrite Hsplit.
    apply elem_of_app. right. apply list_elem_of_here.
Qed.

(** C4 (as amended): when [on_open] and [on_close] both return, [on_close]
    has unregistered from every producer [on_open] registered with and
    unsubscribed every (topic, handler) pair [on_open] subscribed.  When a
    step of [on_close] raises, that exception is the outcome of [on_close]:
    the log ends with the failing call and none of the later steps is
    attempted. *)
Theorem on_close_cleanup_stops_at_first_failure :
  (∀ info w w1 w1' w2,
     on_open raises timelapse_current info w = (Return tt, w1) →
     on_close raises w1' = (Return tt, w2) →
     (∀ p, RegisterCallback p ∈ calls_since w w1 →
           UnregisterCallback p ∈ calls_since w1' w2) ∧
     (∀ topic h, Subscribe topic h ∈ calls_since w w1 →
                 Unsubscribe topic h ∈ calls_since w1' w2)) ∧
  (∀ w e w',
     on_close raises w = (Raise e, w') →
     ∃ done c rest,
       close_steps = done ++ c :: rest ∧
       e = CollaboratorError c ∧
       raises (calls w ++ LoggerInfo "Closed client connection" :: done) c = true ∧
       calls_since w w' = LoggerInfo "Closed client connection" :: done ++ [c] ∧
       (∀ c', c' ∈ rest → c' ∉ calls_since w w')).
Proof.
  split.
  - intros info w w1 w1' w2 ->%on_open_return_inv ->%on_close_return_inv.
    rewrite !calls_since_with_calls. unfold open_calls, open_steps, close_calls, close_steps.
    split.
    + intros p Hin. cases_of_elem Hin; elem_of_concrete.
    + intros topic h Hin. cases_of_elem Hin; elem_of_concrete.
  - intros w e w'. rewrite on_close_steps.
    intros (done & c & rest & Hsplit & -> & Hr & ->)%run_steps_raise.
    rewrite with_calls_app, calls_since_with_calls.
    exists done, c, rest. split; [done|]. split; [done|]. split; [|split; [done|]].
    + simpl in Hr. by rewrite <- app_assoc in Hr.
    + intros c' Hrest Hin. simpl in Hin. apply elem_of_cons in Hin as [->|Hin].
      * apply (close_steps_no_log "Closed client connection").
        rewrite Hsplit. apply elem_of_app. right. by apply list_elem_of_further.
      * pose proof close_steps_NoDup as Hnd.
        rewrite Hsplit, cons_middle, app_assoc in Hnd.
        apply NoDup_app in Hnd as (_ & Hdisj & _). by apply (Hdisj c').
Qed.

(** *** Wire framing *)

Lemma appends_ret {A} P (a : A) : appends P (ret a).
Proof. intros w. exists []. by rewrite app_nil_r. Qed.

Lemma appends_raise {A} P e : appends P (@raise A e).
Proof. intros w. exists []. by rewrite app_nil_r. Qed.

Lemma appends_quiet {A} P (m : py A) :
  (∀ w, calls (snd (m w)) = calls w) → appends P m.
Proof. intros Hm w. exists []. by rewrite Hm, app_nil_r. Qed.

Lemma appends_bind {A B} P (m : py A) (k : A → py B) :
  appends P m → (∀ a, appends P (k a)) → appends P (bind m k).
Proof.
  intros Hm Hk w. unfold bind. destruct (Hm w) as (new & Hcalls & Hnew).
  destruct (m w) as [[a|e] w1]; simpl in *.
  - destruct (Hk a w1) as (new' & Hcalls' & Hnew').
    exists (new ++ new'). split.
    + by rewrite Hcalls', Hcalls, app_assoc.
    + by apply Forall_app.
  - by exists new.
Qed.

Lemma appends_extern (P : call → Prop) c : P c → appends P (extern raises c).
Proof.
  intros Hc w. exists [c]. rewrite extern_run. split; [done|]. by apply Forall_singleton.
Qed.

Lemma appends_record_call (P : call → Prop) c : P c → appends P (record_call c).
Proof. intros Hc w. exists [c]. split; [done|]. by apply Forall_singleton. Qed.

Lemma wire_framed_send tag payload :
  tag ∈ frame_tags → wire_framed (Send {[ tag := payload ]}).
Proof. intros Htag. by exists tag, payload. Qed.

Ltac appends_step :=
  first
    [ apply appends_ret
    | apply appends_raise
    | apply appends_record_call; exact I
    | apply appends_extern; first [ exact I | apply wire_framed_send; elem_of_concrete ]
    | apply appends_quiet; intros ?; reflexivity
    | apply appends_bind; [|intros ?] ].

Lemma _emit_framed type payload :
  type ∈ frame_tags → appends wire_framed (_emit raises type payload).
Proof. intros Htag. by apply appends_extern, wire_framed_send. Qed.

Lemma update_quiet data other : appends wire_framed (update data other).
Proof.
  destruct data; unfold update; try apply appends_raise; [apply appends_ret|].
  apply appends_bind; [apply appends_quiet; intros ?; reflexivity|intros h].
  destruct (h !! l); repeat appends_step.
Qed.

Lemma run_op_framed o : appends wire_framed (run_op raises timelapse_current o).
Proof.
  destruct o as [info| |message|data|data|type payload|name output|cfg|[d|d|d]|[] event payload];
    simpl.
  - unfold on_open, logger_info, timelapse_notifyCallbacks, sendTimelapseConfig, _emit.
    repeat appends_step.
  - unfold on_close, logger_info. repeat appends_step.
  - apply appends_ret.
  - unfold sendCurrentData, drain_temperatureBacklog, drain_logBacklog, drain_messageBacklog.
    repeat (apply appends_bind; [|intros ?]);
      first [ apply update_quiet | apply _emit_framed; elem_of_concrete | appends_step ].
  - apply _emit_framed; elem_of_concrete.
  - apply _emit_framed; elem_of_concrete.
  - apply _emit_framed; elem_of_concrete.
  - apply _emit_framed; elem_of_concrete.
  - unfold addTemperature. repeat appends_step.
  - unfold addLog. repeat appends_step.
  - unfold addMessage. repeat appends_step.
  - apply _emit_framed; elem_of_concrete.
  - apply _emit_framed; elem_of_concrete.
  - apply _emit_framed; elem_of_concrete.
  - apply _emit_framed; elem_of_concrete.
Qed.

Lemma exec_framed ops : ∀ w,
  ∃ new, calls (exec raises timelapse_current ops w) = calls w ++ new ∧
         Forall wire_framed new.
Proof.
  induction ops as [|o ops IH]; intros w; simpl.
  - exists []. by rewrite app_nil_r.
  - destruct (run_op_framed o w) as (new & Hcalls & Hnew).
    destruct (IH (snd (run_op raises timelapse_current o w))) as (new' & Hcalls' & Hnew').
    exists (new ++ new'). split.
    + by rewrite Hcalls', Hcalls, app_assoc.
    + by apply Forall_app.
Qed.

(** C7: whatever methods are invoked on the session, in whatever order
    and with whatever arguments, every unit the session writes to the
    connection is an object with exactly one top-level key, and that key
    is one of the frame tags current, history, updateTrigger,
    feedbackCommandOutput, timelapse; it maps to the frame's payload. *)
Theorem every_write_is_wire_framed (ops : list op) (w : world) :
  Forall (fun c => ∀ frame, c = Send frame →
            ∃ tag payload, tag ∈ frame_tags ∧ frame = {[ tag := payload ]} ∧
                           dom frame = {[ tag ]} ∧ size frame = 1)
         (calls_since w (exec raises timelapse_current ops w)).
Proof.
  destruct (exec_framed ops w) as (new & Hcalls & Hnew).
  unfold calls_since. rewrite Hcalls, drop_app_length.
  eapply Forall_impl; [exact Hnew|]. intros c Hc frame ->.
  destruct Hc as (tag & payload & Htag & ->). exists tag, payload.
  by rewrite dom_singleton_L, map_size_singleton.
Qed.

(** *** Bus handlers *)

Lemma subscribed_after_open info :
  EventBus.subscribed_to "MovieDone" (EventBus.after (open_calls info timelapse_current))
    = [onMovieDone].
Proof. reflexivity. Qed.

(** C8: once [on_open] has returned, so that the session's handlers are
    subscribed, an event published on "MovieDone" (recording finished)
    makes the session write exactly one frame and change nothing else:
    an "updateTrigger" frame whose payload has type "timelapseFiles"
    (and payload [None], whatever the event carried). *)
Theorem movie_done_triggers_timelapseFiles
    (info : conn_info) (w w1 : world) (payload : value) (w2 : world) :
  on_open raises timelapse_current info w = (Return tt, w1) →
  EventBus.publish raises (EventBus.after (calls_since w w1)) "MovieDone" payload w2
    = with_calls w2
        [Send {[ "updateTrigger" :=
                   VDict {[ "type" := VStr "timelapseFiles"; "payload" := VNone ]} ]}].
Proof.
  intros ->%on_open_return_inv. rewrite calls_since_with_calls.
  unfold EventBus.publish. rewrite subscribed_after_open.
  cbn [fold_left run_handler].
  unfold _onMovieDone, sendUpdateTrigger. by rewrite _emit_run.
Qed.

(** *** Backlogs *)

Lemma pushed_nil s : pushed [] s = s.
Proof. destruct s. unfold pushed; simpl. by rewrite !app_nil_r. Qed.

Lemma pushed_cons p ps s : pushed ps (pushed [p] s) = pushed (p :: ps) s.
Proof. destruct p; unfold pushed; simpl; by rewrite <- ?app_assoc, ?app_nil_r. Qed.

Lemma run_push_run p w :
  run_push p w = (Return tt, mkWorld (pushed [p] (self w)) (heap w) (calls w)).
Proof. destruct p; unfold pushed; simpl; by rewrite ?app_nil_r. Qed.

Lemma run_pushes_run ps : ∀ w,
  run_pushes ps w = (Return tt, mkWorld (pushed ps (self w)) (heap w) (calls w)).
Proof.
  induction ps as [|p ps IH]; intros w; simpl.
  - unfold ret. rewrite pushed_nil. by destruct w.
  - unfold bind. rewrite run_push_run, IH. simpl. by rewrite pushed_cons.
Qed.

Lemma on_close_keeps_session w : self (snd (on_close raises w)) = self w.
Proof.
  rewrite on_close_steps.
  destruct (run_steps_prefix close_steps
              (with_calls w [LoggerInfo "Closed client connection"])) as [n ->].
  reflexivity.
Qed.

Lemma backlog_dict_lookup s :
  backlog_dict s !! "temperatures" = Some (VList (temperatureBacklog s)) ∧
  backlog_dict s !! "logs" = Some (VList (logBacklog s)) ∧
  backlog_dict s !! "messages" = Some (VList (messageBacklog s)).
Proof. unfold backlog_dict. by simplify_map_eq. Qed.

Lemma backlog_dict_other s k :
  k ∉ ["temperatures"; "logs"; "messages"] → backlog_dict s !! k = None.
Proof.
  intros Hk. unfold backlog_dict.
  rewrite !lookup_insert_ne, lookup_singleton_ne; [done|..];
    intros <-; apply Hk; elem_of_concrete.
Qed.

(** What a [data.update(backlogs)] leaves in the dict. *)
Lemma dict_update_backlog d s :
  let d' := dict_update d (backlog_dict s) in
  d' !! "temperatures" = Some (VList (temperatureBacklog s)) ∧
  d' !! "logs" = Some (VList (logBacklog s)) ∧
  d' !! "messages" = Some (VList (messageBacklog s)) ∧
  (∀ k, is_Some (d !! k) → is_Some (d' !! k)) ∧
  (∀ k, k ∉ ["temperatures"; "logs"; "messages"] → d' !! k = d !! k).
Proof.
  intros d'. subst d'. unfold dict_update.
  destruct (backlog_dict_lookup s) as (Ht & Hl & Hm).
  repeat split.
  - by apply lookup_union_Some_l.
  - by apply lookup_union_Some_l.
  - by apply lookup_union_Some_l.
  - intros k Hk. apply lookup_union_is_Some. by right.
  - intros k Hk. by apply lookup_union_r, backlog_dict_other.
Qed.

Lemma sendCurrentData_run_dict d w :
  snd (sendCurrentData raises (VDict d) w)
    = mkWorld init_session (heap w)
        (calls w ++ [Send {[ "current" := VDict (dict_update d (backlog_dict (self w))) ]}]).
Proof.
  unfold sendCurrentData, drain_temperatureBacklog, drain_logBacklog, drain_messageBacklog.
  unfold update, bind, get_self, put_self, ret; simpl.
  by rewrite _emit_run.
Qed.

Lemma sendCurrentData_run_ref l d w :
  heap w !! l = Some d →
  snd (sendCurrentData raises (VRef l) w)
    = mkWorld init_session (<[l := dict_update d (backlog_dict (self w))]> (heap w))
        (calls w ++ [Send {[ "current" := VRef l ]}]).
Proof.
  intros Hl.
  unfold sendCurrentData, drain_temperatureBacklog, drain_logBacklog, drain_messageBacklog.
  unfold update, bind, get_self, put_self, get_heap, put_heap, ret; simpl.
  rewrite Hl. by rewrite _emit_run.
Qed.

Lemma sendCurrentData_drains data w :
  self (snd (sendCurrentData raises data w)) = init_session.
Proof.
  unfold sendCurrentData, drain_temperatureBacklog, drain_logBacklog, drain_messageBacklog.
  unfold update, bind, get_self, put_self, get_heap, put_heap, ret, raise; simpl.
  destruct data; simpl; try reflexivity.
  - by rewrite _emit_run.
  - destruct (heap w !! l); [by rewrite _emit_run | reflexivity].
Qed.

(** Pushes that race with a [sendCurrentData]: a record pushed before its
    backlog's critical section is in this frame, a record pushed after it
    stays in the backlog for the next frame; none is in both, none is
    lost, and each list keeps its order. *)
Lemma sendCurrentData_among_nil data w :
  sendCurrentData_among raises [] [] [] data w = sendCurrentData raises data w.
Proof. reflexivity. Qed.

Lemma sendCurrentData_among_run ps1 ps2 ps3 d w :
  let s := self w in
  snd (sendCurrentData_among raises ps1 ps2 ps3 (VDict d) w)
    = mkWorld
        (mkSession (pushed_temperatures (ps1 ++ ps2 ++ ps3))
                   (pushed_logs (ps2 ++ ps3))
                   (pushed_messages ps3))
        (heap w)
        (calls w ++
           [Send {[ "current" :=
              VDict (dict_update d
                {[ "temperatures" := VList (temperatureBacklog s);
                   "logs" := VList (logBacklog s ++ pushed_logs ps1);
                   "messages" := VList (messageBacklog s
                                          ++ pushed_messages (ps1 ++ ps2)) ]}) ]}]).
Proof.
  intros s. subst s.
  unfold sendCurrentData_among, drain_temperatureBacklog, drain_logBacklog,
    drain_messageBacklog.
  unfold bind at 1 2 3. unfold get_self, put_self, ret. simpl.
  unfold bind at 1. rewrite run_pushes_run. simpl.
  unfold bind at 1 2 3. simpl.
  unfold bind at 1. rewrite run_pushes_run. simpl.
  unfold bind at 1 2 3. simpl.
  unfold bind at 1. rewrite run_pushes_run. simpl.
  unfold update, bind, ret. rewrite _emit_run. simpl.
  unfold pushed_temperatures, pushed_logs, pushed_messages.
  by rewrite !omap_app, !app_assoc.
Qed.

(** C1: starting with empty backlogs (as left by [__init__] or by the
    previous [sendCurrentData]), after any sequence of [addTemperature],
    [addLog] and [addMessage] calls, one [sendCurrentData(extraState)] with
    [extraState] a mapping writes exactly one frame, tagged "current".  Its
    payload binds "temperatures", "logs" and "messages" to exactly the
    records added to the matching backlog, in the order they were added,
    and keeps every key of [extraState]; afterwards all three backlogs are
    empty. *)
Theorem sendCurrentData_flushes_backlogs
    (ps : list push) (data : value) (d : gmap string value) (w : world) :
  backlogs_empty (self w) →
  as_dict (heap w) data = Some d →
  let w1 := snd (run_pushes ps w) in
  let w2 := snd (sendCurrentData raises data w1) in
  ∃ payload d',
    calls w2 = calls w ++ [Send {[ "current" := payload ]}] ∧
    as_dict (heap w2) payload = Some d' ∧
    d' !! "temperatures" = Some (VList (pushed_temperatures ps)) ∧
    d' !! "logs" = Some (VList (pushed_logs ps)) ∧
    d' !! "messages" = Some (VList (pushed_messages ps)) ∧
    (∀ k, is_Some (d !! k) → is_Some (d' !! k)) ∧
    (∀ k, k ∉ ["temperatures"; "logs"; "messages"] → d' !! k = d !! k) ∧
    backlogs_empty (self w2).
Proof.
  intros (Ht & Hl & Hm) Hd w1 w2. subst w1 w2. rewrite run_pushes_run; simpl.
  set (w1 := mkWorld (pushed ps (self w)) (heap w) (calls w)).
  pose proof (dict_update_backlog d (self w1)) as Hupd. simpl in Hupd.
  rewrite Ht, Hl, Hm in Hupd. simpl in Hupd.
  destruct data as [| | | | |d0|l]; try discriminate Hd; simpl in Hd.
  - injection Hd as ->. rewrite sendCurrentData_run_dict.
    exists (VDict (dict_update d (backlog_dict (self w1)))), (dict_update d (backlog_dict (self w1))).
    simpl. repeat split; apply Hupd.
  - rewrite (sendCurrentData_run_ref l d w1 Hd).
    exists (VRef l), (dict_update d (backlog_dict (self w1))).
    simpl. rewrite lookup_insert_eq. repeat split; apply Hupd.
Qed.

(** C10: [sendCurrentData] given a reference to the caller's dict changes
    that dict in place: the payload of the "current" frame is the very
    reference that was passed in, the dict it points to now carries the
    drained backlogs under "temperatures", "logs" and "messages" whatever
    it held under those keys before, and its other keys are as they
    were.  No other dict is touched. *)
Theorem sendCurrentData_updates_caller_dict_in_place
    (l : loc) (d : gmap string value) (w : world) :
  heap w !! l = Some d →
  let w' := snd (sendCurrentData raises (VRef l) w) in
  calls w' = calls w ++ [Send {[ "current" := VRef l ]}] ∧
  (∃ d', heap w' !! l = Some d' ∧
         d' !! "temperatures" = Some (VList (temperatureBacklog (self w))) ∧
         d' !! "logs" = Some (VList (logBacklog (self w))) ∧
         d' !! "messages" = Some (VList (messageBacklog (self w))) ∧
         (∀ k, k ∉ ["temperatures"; "logs"; "messages"] → d' !! k = d !! k)) ∧
  (∀ l', l' ≠ l → heap w' !! l' = heap w !! l').
Proof.
  intros Hl w'. subst w'. rewrite (sendCurrentData_run_ref l d w Hl). simpl.
  split; [done|]. split.
  - exists (dict_update d (backlog_dict (self w))). rewrite lookup_insert_eq.
    destruct (dict_update_backlog d (self w)) as (? & ? & ? & _ & ?). by repeat split.
  - intros l' Hne. by rewrite lookup_insert_ne.
Qed.

(** C9 (as amended): after [on_close] has run, however it ended, a stray
    [addLog] (likewise [addTemperature], [addMessage], and any sequence of
    them) returns normally and makes no call to any collaborator, so it
    writes no frame itself: the record is appended to its backlog and
    stays there.  The session keeps no closed flag, so a [sendCurrentData]
    invoked on it afterwards writes a "current" frame that carries the
    record. *)
Theorem stray_push_after_close_only_buffers
    (w : world) (data : value) (ps : list push) (d : gmap string value) :
  let w' := snd (on_close raises w) in
  let s := self w in
  addLog data w'
    = (Return tt,
       mkWorld (mkSession (temperatureBacklog s) (logBacklog s ++ [data]) (messageBacklog s))
               (heap w') (calls w')) ∧
  addTemperature data w'
    = (Return tt,
       mkWorld (mkSession (temperatureBacklog s ++ [data]) (logBacklog s) (messageBacklog s))
               (heap w') (calls w')) ∧
  addMessage data w'
    = (Return tt,
       mkWorld (mkSession (temperatureBacklog s) (logBacklog s) (messageBacklog s ++ [data]))
               (heap w') (calls w')) ∧
  run_pushes ps w' = (Return tt, mkWorld (pushed ps s) (heap w') (calls w')) ∧
  calls_since w' (snd (run_pushes ps w')) = [] ∧
  ∃ d', calls_since w' (snd (sendCurrentData raises (VDict d) (snd (addLog data w'))))
          = [Send {[ "current" := VDict d' ]}] ∧
        d' !! "logs" = Some (VList (logBacklog s ++ [data])).
Proof.
  intros w' s. subst s.
  rewrite run_pushes_run. rewrite <- (on_close_keeps_session w). fold w'.
  repeat split.
  - simpl. unfold calls_since. by rewrite drop_all.
  - rewrite sendCurrentData_run_dict. eexists. split.
    + unfold calls_since. simpl. by rewrite drop_app_length.
    + apply dict_update_backlog.
Qed.

End Facts.

(** * Concrete runs *)

Example forwarded_address : _getRemoteAddress proxied_client = "10.0.0.7".
Proof. reflexivity. Qed.

Example direct_address : _getRemoteAddress local_client = "127.0.0.1".
Proof. reflexivity. Qed.

(** Non-mapping [extraState]: the backlogs are already drained when
    [update] raises, and nothing is written. *)
Example sendCurrentData_none :
  sendCurrentData never_raises VNone (mkWorld (mkSession [sample] [] []) ∅ [])
    = (Raise (AttributeError "update"), init_world).
Proof. reflexivity. Qed.

(** C1, witness: three [addTemperature({t: 200})] on a fresh session, then
    [sendCurrentData({state: "printing"})]. *)
Lemma sendCurrentData_flushes_backlogs_witness :
  let ps := [PushTemperature sample; PushTemperature sample; PushTemperature sample] in
  let w2 := snd (sendCurrentData never_raises (VDict printing)
                   (snd (run_pushes ps init_world))) in
  ∃ payload d',
    calls w2 = calls init_world ++ [Send {[ "current" := payload ]}] ∧
    as_dict (heap w2) payload = Some d' ∧
    d' !! "temperatures" = Some (VList [sample; sample; sample]) ∧
    d' !! "logs" = Some (VList []) ∧
    d' !! "messages" = Some (VList []) ∧
    (∀ k, is_Some (printing !! k) → is_Some (d' !! k)) ∧
    (∀ k, k ∉ ["temperatures"; "logs"; "messages"] → d' !! k = printing !! k) ∧
    backlogs_empty (self w2).
Proof.
  apply (sendCurrentData_flushes_backlogs never_raises
           [PushTemperature sample; PushTemperature sample; PushTemperature sample]
           (VDict printing) printing init_world).
  - repeat split.
  - reflexivity.
Defined.

(** C2, counterexample: with every collaborator working, the calls of
    [on_close] are not in the order unregister, unsubscribe, fire:
    "ClientClosed" is fired before the first unsubscribe. *)
Lemma on_close_fires_before_unsubscribing :
  calls_since init_world (snd (on_close never_raises init_world))
    = [ LoggerInfo "Closed client connection";
        UnregisterCallback Printer; UnregisterCallback GcodeManager;
        UnregisterCallback Timelapse;
        Fire "ClientClosed";
        Unsubscribe "MovieDone" onMovieDone;
        Unsubscribe "SlicingStarted" onSlicingStarted;
        Unsubscribe "SlicingDone" onSlicingDone;
        Unsubscribe "SlicingFailed" onSlicingFailed ] ∧
  close_order_as_specified
    (calls_since init_world (snd (on_close never_raises init_world))) = false.
Proof. split; reflexivity. Qed.

(** C2, witness. *)
Lemma on_close_call_order_witness :
  on_close never_raises init_world =
    (Return tt,
     with_calls init_world
       [ LoggerInfo "Closed client connection";
         UnregisterCallback Printer; UnregisterCallback GcodeManager;
         UnregisterCallback Timelapse;
         Fire "ClientClosed";
         Unsubscribe "MovieDone" onMovieDone;
         Unsubscribe "SlicingStarted" onSlicingStarted;
         Unsubscribe "SlicingDone" onSlicingDone;
         Unsubscribe "SlicingFailed" onSlicingFailed ]).
Proof. apply (on_close_call_order never_raises init_world). intros h c Hc. reflexivity. Defined.

(** C3, counterexample: with every collaborator working, the calls of
    [on_open] are not in the order register, subscribe, configuration
    push, fire: "ClientOpened" is fired before the first subscribe. *)
Lemma on_open_fires_before_subscribing :
  calls_since init_world (snd (on_open never_raises VNone local_client init_world))
    = [ LoggerInfo "New connection from client: 127.0.0.1";
        RegisterCallback Printer; RegisterCallback GcodeManager;
        RegisterCallback Timelapse;
        Fire "ClientOpened";
        Subscribe "MovieDone" onMovieDone;
        Subscribe "SlicingStarted" onSlicingStarted;
        Subscribe "SlicingDone" onSlicingDone;
        Subscribe "SlicingFailed" onSlicingFailed;
        NotifyCallbacks;
        Send {[ "timelapse" := VNone ]} ] ∧
  open_order_as_specified
    (calls_since init_world (snd (on_open never_raises VNone local_client init_world)))
    = false.
Proof. split; [reflexivity | vm_compute; reflexivity]. Qed.

(** C3, witness. *)
Lemma on_open_call_order_witness :
  on_open never_raises VNone local_client init_world =
    (Return tt,
     with_calls init_world
       [ LoggerInfo ("New connection from client: " +:+ _getRemoteAddress local_client);
         RegisterCallback Printer; RegisterCallback GcodeManager;
         RegisterCallback Timelapse;
         Fire "ClientOpened";
         Subscribe "MovieDone" onMovieDone;
         Subscribe "SlicingStarted" onSlicingStarted;
         Subscribe "SlicingDone" onSlicingDone;
         Subscribe "SlicingFailed" onSlicingFailed;
         NotifyCallbacks;
         Send {[ "timelapse" := VNone ]} ]).
Proof.
  apply (on_open_call_order never_raises VNone local_client init_world).
  intros h c Hc. reflexivity.
Defined.

(** C4, counterexample: the printer's [unregisterCallback] raises.
    [on_close] ends with that exception after two calls; the gcode
    manager, the timelapse subsystem and the four subscriptions are never
    reached. *)
Lemma on_close_stops_at_first_failure :
  on_close printer_unregister_fails init_world
    = (Raise (CollaboratorError (UnregisterCallback Printer)),
       with_calls init_world
         [LoggerInfo "Closed client connection"; UnregisterCallback Printer]) ∧
  ¬ (∀ c, c ∈ cleanup_steps →
          c ∈ calls (snd (on_close printer_unregister_fails init_world))).
Proof.
  split; [reflexivity|].
  intros Hall. specialize (Hall (UnregisterCallback GcodeManager)).
  assert (UnregisterCallback GcodeManager ∈ cleanup_steps) as Hin
    by (unfold cleanup_steps; elem_of_concrete).
  apply Hall in Hin. simpl in Hin. cases_of_elem Hin.
Qed.

(** C4, witness: a clean open/close pair, and a close whose first cleanup
    step fails. *)
Lemma on_close_cleanup_witness :
  (let w1 := snd (on_open never_raises VNone local_client init_world) in
   let w2 := snd (on_close never_raises w1) in
   (∀ p, RegisterCallback p ∈ calls_since init_world w1 →
         UnregisterCallback p ∈ calls_since w1 w2) ∧
   (∀ topic h, Subscribe topic h ∈ calls_since init_world w1 →
               Unsubscribe topic h ∈ calls_since w1 w2)) ∧
  (∃ done c rest,
     close_steps = done ++ c :: rest ∧
     CollaboratorError (UnregisterCallback Printer) = CollaboratorError c ∧
     printer_unregister_fails
       (calls init_world ++ LoggerInfo "Closed client connection" :: done) c = true ∧
     calls_since init_world (snd (on_close printer_unregister_fails init_world))
       = LoggerInfo "Closed client connection" :: done ++ [c] ∧
     (∀ c', c' ∈ rest →
            c' ∉ calls_since init_world
                   (snd (on_close printer_unregister_fails init_world)))).
Proof.
  split.
  - apply (proj1 (on_close_cleanup_stops_at_first_failure never_raises VNone)
             local_client init_world); reflexivity.
  - apply (proj2 (on_close_cleanup_stops_at_first_failure printer_unregister_fails VNone)
             init_world). reflexivity.
Defined.

(** C5, counterexample: on a dead connection [_emit] ends with the
    transport's exception, and the only call it has made is the write:
    nothing was logged. *)
Lemma _emit_dead_transport_raises :
  _emit dead_transport "history" VNone init_world
    = (Raise (CollaboratorError (Send {[ "history" := VNone ]})),
       with_calls init_world [Send {[ "history" := VNone ]}]).
Proof. reflexivity. Qed.

(** C6, counterexample: [sendHistoryData("h")] writes [{"history": "h"}],
    which is not [{"type": "history", "payload": "h"}]. *)
Lemma sendHistoryData_frame_not_type_payload :
  calls (snd (sendHistoryData never_raises (VStr "h") init_world))
    = [Send {[ "history" := VStr "h" ]}] ∧
  calls (snd (sendHistoryData never_raises (VStr "h") init_world))
    ≠ [Send (type_payload_envelope "history" (VStr "h"))].
Proof.
  split; [reflexivity|]. intros Heq.
  apply (f_equal (fun cs => match cs with
                            | [Send frame] => frame !! "type"
                            | _ => None
                            end)) in Heq.
  vm_compute in Heq. discriminate Heq.
Qed.

(** C8, witness. *)
Lemma movie_done_triggers_timelapseFiles_witness :
  EventBus.publish never_raises
    (EventBus.after
       (calls_since init_world
          (snd (on_open never_raises VNone local_client init_world))))
    "MovieDone" (VStr "print.mpg") init_world
  = with_calls init_world
      [Send {[ "updateTrigger" :=
                 VDict {[ "type" := VStr "timelapseFiles"; "payload" := VNone ]} ]}].
Proof.
  apply (movie_done_triggers_timelapseFiles never_raises VNone local_client init_world
           (snd (on_open never_raises VNone local_client init_world))
           (VStr "print.mpg") init_world).
  reflexivity.
Defined.

(** C9, counterexample: the session is closed, a stray [addLog] arrives,
    and a later [sendCurrentData] writes a frame that carries the
    record. *)
Lemma stray_record_is_written_by_later_sendCurrentData :
  let w1 := snd (on_close never_raises init_world) in
  let w2 := snd (addLog (VStr "late line") w1) in
  calls_since w2 (snd (sendCurrentData never_raises (VDict ∅) w2))
    = [Send {[ "current" :=
                 VDict {[ "temperatures" := VList [];
                          "logs" := VList [VStr "late line"];
                          "messages" := VList [] ]} ]}].
Proof. vm_compute. reflexivity. Qed.

(** C10, witness: the caller's dict already has a "temperatures" entry. *)
Lemma sendCurrentData_updates_caller_dict_in_place_witness :
  let d : gmap string value := {[ "temperatures" := VStr "stale"; "state" := VStr "printing" ]} in
  let w := mkWorld (mkSession [sample] [] []) {[ 1%positive := d ]} [] in
  let w' := snd (sendCurrentData never_raises (VRef 1) w) in
  calls w' = calls w ++ [Send {[ "current" := VRef 1 ]}] ∧
  (∃ d', heap w' !! 1%positive = Some d' ∧
         d' !! "temperatures" = Some (VList (temperatureBacklog (self w))) ∧
         d' !! "logs" = Some (VList (logBacklog (self w))) ∧
         d' !! "messages" = Some (VList (messageBacklog (self w))) ∧
         (∀ k, k ∉ ["temperatures"; "logs"; "messages"] → d' !! k = d !! k)) ∧
  (∀ l', l' ≠ 1%positive → heap w' !! l' = heap w !! l').
Proof.
  intros d w.
  apply (sendCurrentData_updates_caller_dict_in_place never_raises 1%positive d w).
  reflexivity.
Defined.

(** * The rest of the module *)

(** *** Python string operations *)

Lemma str_app_cons a s t : String a s +:+ t = String a (s +:+ t).
Proof. reflexivity. Qed.

Lemma str_app_nil_l t : "" +:+ t = t.
Proof. reflexivity. Qed.

Lemma startswith_app s rest : startswith (s +:+ rest) s = true.
Proof.
  induction s as [|a s IH]; [done|].
  rewrite str_app_cons. simpl. by rewrite Ascii.eqb_refl, IH.
Qed.

Lemma startswith_inv s p : startswith s p = true → ∃ rest, s = p +:+ rest.
Proof.
  revert s. induction p as [|a p IH]; intros s; simpl.
  - intros _. by exists s.
  - destruct s as [|b s]; [done|]. intros [Hab Hp]%andb_true_iff.
    apply Ascii.eqb_eq in Hab as ->. apply IH in Hp as [rest ->]. by exists rest.
Qed.

Lemma str_take_drop n s : str_take n s +:+ str_drop n s = s.
Proof.
  revert s. induction n as [|n IH]; intros [|a s]; simpl; try done.
  rewrite str_app_cons. f_equal. apply IH.
Qed.

Lemma str_length_app s t : String.length (s +:+ t) = (String.length s + String.length t)%nat.
Proof.
  induction s as [|a s IH]; [done|]. rewrite str_app_cons. simpl. by rewrite IH.
Qed.

Lemma str_take_app s t : str_take (String.length s) (s +:+ t) = s.
Proof.
  induction s as [|a s IH]; [by destruct t|]. rewrite str_app_cons. simpl. by rewrite IH.
Qed.

Lemma str_drop_app s t : str_drop (String.length s) (s +:+ t) = t.
Proof. induction s as [|a s IH]; [by destruct t|]. by rewrite str_app_cons. Qed.

Lemma str_take_length n s : (n ≤ String.length s)%nat → String.length (str_take n s) = n.
Proof.
  revert s. induction n as [|n IH]; intros [|a s]; simpl; try done; try lia.
  intros Hn. rewrite IH; lia.
Qed.

Lemma str_app_assoc s t u : (s +:+ t) +:+ u = s +:+ t +:+ u.
Proof. induction s as [|a s IH]; [done|]. rewrite !str_app_cons. by rewrite IH. Qed.

Lemma str_app_nil_r s : s +:+ "" = s.
Proof. induction s as [|a s IH]; [done|]. rewrite str_app_cons. by rewrite IH. Qed.

Lemma slice_to_nat s n :
  (n ≤ String.length s)%nat → slice_to s (Z.of_nat n) = str_take n s.
Proof.
  intros Hn. unfold slice_to, slice_bound.
  destruct (Z.ltb_spec (Z.of_nat n) 0); [lia|]. f_equal. lia.
Qed.

Lemma slice_from_nat s n :
  (n ≤ String.length s)%nat → slice_from s (Z.of_nat n) = str_drop n s.
Proof.
  intros Hn. unfold slice_from, slice_bound.
  destruct (Z.ltb_spec (Z.of_nat n) 0); [lia|]. f_equal. lia.
Qed.

(** What [find_at] returns: [-1] with no occurrence at any offset, or the
    offset of the first occurrence. *)
Lemma find_at_spec sub s : ∀ i,
  (find_at s sub i = -1 ∧
     ∀ n, (n ≤ String.length s)%nat → startswith (str_drop n s) sub = false)%Z
  ∨ (∃ n, find_at s sub i = (i + Z.of_nat n)%Z ∧ (n ≤ String.length s)%nat ∧
          startswith (str_drop n s) sub = true ∧
          ∀ m, (m < n)%nat → startswith (str_drop m s) sub = false).
Proof.
  induction s as [|a s IH]; intros i.
  - simpl. destruct (startswith "" sub) eqn:Hsw.
    + right. exists 0. repeat split; [lia|done|done|lia].
    + left. split; [done|]. intros n Hn. by destruct n.
  - cbn [find_at]. destruct (startswith (String a s) sub) eqn:Hsw.
    + right. exists 0. repeat split; [lia|simpl; lia|done|lia].
    + destruct (IH (i + 1)%Z) as [[Hnone Hall]|(n & Hfound & Hn & Hsw' & Hfirst)].
      * left. split; [done|]. intros [|n] Hn; [done|]. simpl. apply Hall. simpl in Hn. lia.
      * right. exists (S n). repeat split.
        -- rewrite Hfound. lia.
        -- simpl. lia.
        -- done.
        -- intros [|m] Hm; [done|]. simpl. apply Hfirst. lia.
Qed.

Lemma rfind_at_spec sub s : ∀ i, (0 ≤ i)%Z →
  (rfind_at s sub i = -1 ∧
     ∀ n, (n ≤ String.length s)%nat → startswith (str_drop n s) sub = false)%Z
  ∨ (∃ n, rfind_at s sub i = (i + Z.of_nat n)%Z ∧ (n ≤ String.length s)%nat ∧
          startswith (str_drop n s) sub = true ∧
          ∀ m, (n < m)%nat → (m ≤ String.length s)%nat → startswith (str_drop m s) sub = false).
Proof.
  induction s as [|a s IH]; intros i Hi.
  - simpl. destruct (startswith "" sub) eqn:Hsw.
    + right. exists 0. repeat split; [lia|done|done|]. intros m Hm Hlen. simpl in Hlen. lia.
    + left. split; [done|]. intros n Hn. by destruct n.
  - cbn [rfind_at].
    destruct (IH (i + 1)%Z ltac:(lia)) as [[Hnone Hall]|(n & Hfound & Hn & Hsw' & Hlast)].
    + rewrite Hnone. change (0 <=? -1)%Z with false. cbv iota.
      destruct (startswith (String a s) sub) eqn:Hsw.
      * right. exists 0. repeat split; [lia|simpl; lia|done|].
        intros [|m] Hm Hlen; [lia|]. simpl. apply Hall. simpl in Hlen. lia.
      * left. split; [done|]. intros [|n] Hn; [done|]. simpl. apply Hall. simpl in Hn. lia.
    + rewrite Hfound.
      destruct (Z.leb_spec 0 (i + 1 + Z.of_nat n)) as [Hge|Hlt]; [|lia].
      right. exists (S n). repeat split.
      * lia.
      * simpl. lia.
      * done.
      * intros [|m] Hm Hlen; [lia|]. simpl. apply Hlast; [lia|]. simpl in Hlen. lia.
Qed.

Lemma str_drop_add a b s : str_drop (a + b) s = str_drop b (str_drop a s).
Proof.
  revert s. induction a as [|a IH]; intros s; [done|].
  destruct s as [|c s]; simpl; [by destruct b|]. apply IH.
Qed.

Lemma str_drop_length n s :
  (n ≤ String.length s)%nat → String.length (str_drop n s) = (String.length s - n)%nat.
Proof.
  revert s. induction n as [|n IH]; intros [|c s]; simpl; try done; try lia.
  intros Hn. apply IH. lia.
Qed.

Lemma find_absent s sub :
  (∀ n, (n ≤ String.length s)%nat → startswith (str_drop n s) sub = false) →
  find s sub = (-1)%Z.
Proof.
  intros Hall. unfold find.
  destruct (find_at_spec sub s 0) as [[Hnone _]|(n & _ & Hn & Hsw & _)]; [done|].
  by rewrite Hall in Hsw.
Qed.

(** *** [_getRemoteAddress] *)

Lemma before_comma_no_comma f : ∀ i, find_at (before_comma f) "," i = (-1)%Z.
Proof.
  induction f as [|c f IH]; intros i; [done|]. cbn [before_comma].
  destruct (Ascii.eqb c ",") eqn:Hc; [done|].
  cbn [find_at startswith]. rewrite Ascii.eqb_sym, Hc. apply IH.
Qed.

Lemma before_comma_prefix f :
  f = before_comma f ∨ ∃ rest, f = before_comma f +:+ "," +:+ rest.
Proof.
  induction f as [|c f IH]; [by left|]. cbn [before_comma].
  destruct (Ascii.eqb c ",") eqn:Hc.
  - apply Ascii.eqb_eq in Hc as ->. right. by exists f.
  - destruct IH as [IH|[rest IH]].
    + left. by rewrite <- IH.
    + right. exists rest. rewrite str_app_cons. by rewrite <- IH.
Qed.

(** X1: behind a proxy, the logged client address is the first entry of
    the [X-Forwarded-For] header: it is the text of the header up to its
    first comma, it contains no comma, and the peer address [info.ip] is
    not used, even when the header is empty. *)
Theorem _getRemoteAddress_first_forwarded_entry (info : conn_info) (forwardedFor : string) :
  headers info !! "X-Forwarded-For" = Some forwardedFor →
  contains "," (_getRemoteAddress info) = false ∧
  (forwardedFor = _getRemoteAddress info ∨
   ∃ rest, forwardedFor = _getRemoteAddress info +:+ "," +:+ rest) ∧
  _getRemoteAddress info = _getRemoteAddress (mkInfo (headers info) "").
Proof.
  intros Hh. unfold _getRemoteAddress. simpl. rewrite Hh. split; [|split; [|done]].
  - unfold contains, find. by rewrite before_comma_no_comma.
  - apply before_comma_prefix.
Qed.

(** *** [redirectToTornado] *)

(** X2: for a request URL without a query string in which the marker
    [url_for("index") + "/ajax"] occurs, the redirect target is the part of
    the URL before the first occurrence of the marker, followed by
    [target]. *)
Theorem redirectToTornado_replaces_from_marker (index_url requestUrl target : string) :
  contains "?" requestUrl = false →
  (0 ≤ find requestUrl (index_url +:+ "/ajax"))%Z →
  ∃ base rest,
    requestUrl = base +:+ (index_url +:+ "/ajax") +:+ rest ∧
    find requestUrl (index_url +:+ "/ajax") = Z.of_nat (String.length base) ∧
    redirectToTornado index_url requestUrl target = base +:+ target.
Proof.
  intros Hq Hfound. unfold redirectToTornado. rewrite Hq.
  unfold find in *.
  destruct (find_at_spec (index_url +:+ "/ajax") requestUrl 0)
    as [[Hnone _]|(n & Hn & Hlen & Hsw & _)]; [lia|].
  apply startswith_inv in Hsw as [rest Hrest].
  exists (str_take n requestUrl), rest.
  rewrite Hn, Z.add_0_l, str_take_length, slice_to_nat by done.
  split; [|done]. by rewrite <- Hrest, str_take_drop.
Qed.

(** X3: a query string is carried over.  When the request URL contains
    "?", the text from its last "?" on is appended after [target]; that
    text has no further "?". *)
Theorem redirectToTornado_keeps_query (index_url requestUrl target : string) :
  contains "?" requestUrl = true →
  ∃ pre query,
    requestUrl = pre +:+ "?" +:+ query ∧
    contains "?" query = false ∧
    redirectToTornado index_url requestUrl target
      = slice_to requestUrl (find requestUrl (index_url +:+ "/ajax"))
          +:+ target +:+ "?" +:+ query.
Proof.
  intros Hq. unfold redirectToTornado. rewrite Hq.
  unfold contains in Hq. apply Z.leb_le in Hq. unfold find in Hq.
  destruct (find_at_spec "?" requestUrl 0)
    as [[Hnone _]|(k & _ & Hk & Hswk & _)]; [lia|].
  unfold rfind.
  destruct (rfind_at_spec "?" requestUrl 0 ltac:(lia))
    as [[_ Hall]|(n & Hn & Hlen & Hsw & Hlast)]; [by rewrite Hall in Hswk|].
  apply startswith_inv in Hsw as [query Hquery].
  exists (str_take n requestUrl), query.
  rewrite Hn, Z.add_0_l, slice_from_nat, Hquery by done.
  split; [by rewrite <- Hquery, str_take_drop|]. split; [|by rewrite str_app_assoc].
  unfold contains. rewrite find_absent; [done|].
  intros m Hm.
  assert (String.length requestUrl = n + 1 + String.length query)%nat as Hlq.
  { apply (f_equal String.length) in Hquery.
    rewrite str_drop_length, str_length_app in Hquery by done. simpl in Hquery. lia. }
  replace (str_drop m query) with (str_drop (n + 1 + m) requestUrl).
  - apply Hlast; lia.
  - by rewrite !str_drop_add, Hquery.
Qed.

(** X4: when the marker does not occur in the request URL, [find] yields
    [-1] and the slice [requestUrl[:-1]] cuts off the last character: the
    redirect target is the request URL without its last character,
    followed by [target]. *)
Theorem redirectToTornado_marker_absent (index_url body target : string) (c : ascii) :
  find (body +:+ String c "") (index_url +:+ "/ajax") = (-1)%Z →
  contains "?" (body +:+ String c "") = false →
  redirectToTornado index_url (body +:+ String c "") target = body +:+ target.
Proof.
  intros Hnone Hq. unfold redirectToTornado. rewrite Hq, Hnone. f_equal.
  unfold slice_to, slice_bound. rewrite str_length_app. simpl.
  replace (Z.to_nat _) with (String.length body) by lia.
  apply str_take_app.
Qed.

(** *** [ReverseProxied] *)

Lemma truthy_default o : truthy (Some (default "" o)) = truthy o.
Proof. by destruct o. Qed.

Lemma truthy_Some o s : truthy o = Some s → o = Some s ∧ s ≠ "".
Proof.
  destruct o as [s'|]; simpl; [|done].
  destruct (String.eqb_spec s' ""); [done|]. by intros [= <-].
Qed.

Lemma truthy_nonempty s : s ≠ "" → truthy (Some s) = Some s.
Proof. intros Hs. simpl. by destruct (String.eqb_spec s ""). Qed.

(** The script name and the scheme [__call__] settles on: the header when
    it is non-empty, else the setting when that is non-empty. *)
Lemma ReverseProxied_call_unfold settings environ :
  ReverseProxied_call settings environ =
    let script_name :=
      match truthy (environ !! "HTTP_X_SCRIPT_NAME") with
      | Some h => Some h
      | None => truthy (server_baseUrl settings)
      end in
    let scheme :=
      match truthy (environ !! "HTTP_X_SCHEME") with
      | Some h => Some h
      | None => truthy (server_scheme settings)
      end in
    let tag environ :=
      match scheme with
      | Some scheme => AppCalled (<["wsgi.url_scheme" := scheme]> environ)
      | None => AppCalled environ
      end in
    match script_name with
    | None => tag environ
    | Some name =>
        match environ !! "PATH_INFO" with
        | None => KeyError "PATH_INFO"
        | Some p =>
            if startswith p name
            then tag (<["PATH_INFO" := slice_from p (Z.of_nat (String.length name))]>
                        (<["SCRIPT_NAME" := name]> environ))
            else tag (<["SCRIPT_NAME" := name]> environ)
        end
    end.
Proof.
  unfold ReverseProxied_call. rewrite truthy_default.
  assert (∀ env : gmap string string,
            env !! "HTTP_X_SCHEME" = environ !! "HTTP_X_SCHEME" →
            match truthy
                    match truthy (Some (default "" (env !! "HTTP_X_SCHEME"))) with
                    | Some _ => Some (default "" (env !! "HTTP_X_SCHEME"))
                    | None => server_scheme settings
                    end
            with
            | Some scheme => AppCalled (<["wsgi.url_scheme" := scheme]> env)
            | None => AppCalled env
            end
            = match
                match truthy (environ !! "HTTP_X_SCHEME") with
                | Some h => Some h
                | None => truthy (server_scheme settings)
                end
              with
              | Some scheme => AppCalled (<["wsgi.url_scheme" := scheme]> env)
              | None => AppCalled env
              end) as Htag.
  { intros env ->. rewrite truthy_default.
    destruct (truthy (environ !! "HTTP_X_SCHEME")) as [h|] eqn:Hh; [|done].
    apply truthy_Some in Hh as [Hh Hne]. by rewrite truthy_default, Hh, truthy_nonempty. }
  cbv zeta.
  destruct (truthy (environ !! "HTTP_X_SCRIPT_NAME")) as [h|] eqn:Hh.
  - apply truthy_Some in Hh as [Hh Hne]. rewrite Hh. cbn [default from_option id].
    rewrite truthy_nonempty by done.
    rewrite lookup_insert_ne by done.
    destruct (environ !! "PATH_INFO") as [p|]; [|done].
    destruct (startswith p h); apply Htag; by rewrite ?lookup_insert_ne.
  - destruct (truthy (server_baseUrl settings)) as [b|] eqn:Hb; [|by apply Htag].
    rewrite lookup_insert_ne by done.
    destruct (environ !! "PATH_INFO") as [p|]; [|done].
    destruct (startswith p b); apply Htag; by rewrite ?lookup_insert_ne.
Qed.

(** X5: with neither header nor setting (unset or empty) for the script
    name and for the scheme, the middleware is transparent: the
    application is called with the environ unchanged. *)
Theorem ReverseProxied_transparent_without_configuration
    (settings : proxy_settings) (environ : gmap string string) :
  truthy (environ !! "HTTP_X_SCRIPT_NAME") = None →
  truthy (server_baseUrl settings) = None →
  truthy (environ !! "HTTP_X_SCHEME") = None →
  truthy (server_scheme settings) = None →
  ReverseProxied_call settings environ = AppCalled environ.
Proof.
  intros H1 H2 H3 H4. rewrite ReverseProxied_call_unfold. cbv zeta.
  by rewrite H1, H2, H3, H4.
Qed.

(** X6: when the path starts with the script name in effect (the
    [X-Script-Name] header if non-empty, else the [baseUrl] setting), the
    application sees [SCRIPT_NAME] set to it and [PATH_INFO] reduced to
    the rest, so that [SCRIPT_NAME + PATH_INFO] is the original path. *)
Theorem ReverseProxied_splits_path
    (settings : proxy_settings) (environ : gmap string string)
    (script_name rest : string) :
  (environ !! "HTTP_X_SCRIPT_NAME" = Some script_name ∨
   truthy (environ !! "HTTP_X_SCRIPT_NAME") = None ∧
   server_baseUrl settings = Some script_name) →
  script_name ≠ "" →
  environ !! "PATH_INFO" = Some (script_name +:+ rest) →
  ∃ environ',
    ReverseProxied_call settings environ = AppCalled environ' ∧
    environ' !! "SCRIPT_NAME" = Some script_name ∧
    environ' !! "PATH_INFO" = Some rest.
Proof.
  intros Hsn Hne Hpath. rewrite ReverseProxied_call_unfold. cbv zeta.
  assert (match truthy (environ !! "HTTP_X_SCRIPT_NAME") with
          | Some h => Some h
          | None => truthy (server_baseUrl settings)
          end = Some script_name) as ->.
  { destruct Hsn as [->|[-> ->]]; by rewrite truthy_nonempty. }
  rewrite Hpath, startswith_app, slice_from_nat, str_drop_app
    by (rewrite str_length_app; lia).
  destruct (match truthy (environ !! "HTTP_X_SCHEME") with
            | Some h => Some h
            | None => truthy (server_scheme settings)
            end) as [scheme|];
    eexists; (split; [reflexivity|]); by simplify_map_eq.
Qed.

(** X7: a non-empty [X-Script-Name] header and a non-empty [X-Scheme]
    header take precedence: the settings are then not consulted, the
    outcome is the same whatever they hold. *)
Theorem ReverseProxied_headers_override_settings
    (settings settings' : proxy_settings) (environ : gmap string string) :
  truthy (environ !! "HTTP_X_SCRIPT_NAME") ≠ None →
  truthy (environ !! "HTTP_X_SCHEME") ≠ None →
  ReverseProxied_call settings environ = ReverseProxied_call settings' environ.
Proof.
  intros H1 H2. rewrite !ReverseProxied_call_unfold. cbv zeta.
  destruct (truthy (environ !! "HTTP_X_SCRIPT_NAME")); [|done].
  by destruct (truthy (environ !! "HTTP_X_SCHEME")).
Qed.

(** X8: the only failure of [__call__] itself is the [KeyError] of
    [environ['PATH_INFO']]; it happens exactly when a script name is in
    effect and the environ has no [PATH_INFO]. *)
Theorem ReverseProxied_KeyError_iff
    (settings : proxy_settings) (environ : gmap string string) (key : string) :
  ReverseProxied_call settings environ = KeyError key ↔
  key = "PATH_INFO" ∧ environ !! "PATH_INFO" = None ∧
  (truthy (environ !! "HTTP_X_SCRIPT_NAME") ≠ None ∨
   truthy (server_baseUrl settings) ≠ None).
Proof.
  rewrite ReverseProxied_call_unfold. cbv zeta.
  set (scheme := match truthy (environ !! "HTTP_X_SCHEME") with
                 | Some h => Some h
                 | None => truthy (server_scheme settings)
                 end).
  assert (∀ env, match scheme with
                 | Some scheme => AppCalled (<["wsgi.url_scheme" := scheme]> env)
                 | None => AppCalled env
                 end ≠ KeyError key) as Htag by (intros env; by destruct scheme).
  destruct (truthy (environ !! "HTTP_X_SCRIPT_NAME")) as [h|] eqn:Hh;
    [|destruct (truthy (server_baseUrl settings)) as [b|] eqn:Hb].
  - destruct (environ !! "PATH_INFO") as [p|].
    + split; [|by intros (_ & [=] & _)].
      destruct (startswith p h); intros Hcall; by apply Htag in Hcall.
    + split; [intros [= <-]|by intros (-> & _ & _)].
      split; [done|]. split; [done|]. by left.
  - destruct (environ !! "PATH_INFO") as [p|].
    + split; [|by intros (_ & [=] & _)].
      destruct (startswith p b); intros Hcall; by apply Htag in Hcall.
    + split; [intros [= <-]|by intros (-> & _ & _)].
      split; [done|]. split; [done|]. by right.
  - split; [intros Hcall; by apply Htag in Hcall|].
    by intros (_ & _ & [?|?]).
Qed.

(** X9: the middleware touches three entries only.  Every other entry of
    the environ reaches the application unchanged, and [PATH_INFO] is
    either unchanged or the old path with the [SCRIPT_NAME] prefix taken
    off. *)
Theorem ReverseProxied_environ_frame
    (settings : proxy_settings) (environ environ' : gmap string string) :
  ReverseProxied_call settings environ = AppCalled environ' →
  (∀ k, k ∉ ["SCRIPT_NAME"; "PATH_INFO"; "wsgi.url_scheme"] →
        environ' !! k = environ !! k) ∧
  (environ' !! "PATH_INFO" = environ !! "PATH_INFO" ∨
   ∃ name p p', environ' !! "SCRIPT_NAME" = Some name ∧
              environ !! "PATH_INFO" = Some p ∧
              environ' !! "PATH_INFO" = Some p' ∧ p = name +:+ p').
Proof.
  rewrite ReverseProxied_call_unfold. cbv zeta.
  set (scheme := match truthy (environ !! "HTTP_X_SCHEME") with
                 | Some h => Some h
                 | None => truthy (server_scheme settings)
                 end).
  set (script_name := match truthy (environ !! "HTTP_X_SCRIPT_NAME") with
                      | Some h => Some h
                      | None => truthy (server_baseUrl settings)
                      end).
  assert (∀ k : string, k ∉ ["SCRIPT_NAME"; "PATH_INFO"; "wsgi.url_scheme"] →
            k ≠ "SCRIPT_NAME" ∧ k ≠ "PATH_INFO" ∧ k ≠ "wsgi.url_scheme") as Hkeys.
  { intros k Hk. repeat split; intros ->; apply Hk; elem_of_concrete. }
  destruct script_name as [name|]; [destruct (environ !! "PATH_INFO") as [p|] eqn:Hp; [|done];
                                  destruct (startswith p name) eqn:Hsw|];
    destruct scheme as [sch|]; intros [= <-]; (split;
      [intros k Hk; apply Hkeys in Hk as (? & ? & ?);
       rewrite ?lookup_insert_ne by congruence; reflexivity|]).
  1,2: right; apply startswith_inv in Hsw as [rest ->];
       exists name; exists (name +:+ rest); exists rest;
       rewrite slice_from_nat, str_drop_app by (rewrite str_length_app; lia);
       by simplify_map_eq.
  all: left; by simplify_map_eq.
Qed.

Section MoreFacts.

Context (raises : list call → call → bool) (timelapse_current : value).

(** *** Conservation of buffered records *)

















(** *** Failing flushes *)

(** X11: [sendCurrentData] given something that is not a mapping raises
    [AttributeError] from [data.update] and writes no frame, but the three
    backlogs have already been swapped out: the buffered records are
    gone. *)
Theorem sendCurrentData_non_mapping_drops_backlogs (data : value) (w : world) :
  as_dict (heap w) data = None →
  sendCurrentData raises data w
    = (Raise (AttributeError "update"), mkWorld init_session (heap w) (calls w)).
Proof.
  intros Hnone.
  unfold sendCurrentData, drain_temperatureBacklog, drain_logBacklog, drain_messageBacklog.
  unfold update, bind, get_self, put_self, get_heap, put_heap, ret, raise.
  destruct data; try discriminate Hnone; try reflexivity.
  simpl in Hnone. cbn [self heap calls fst snd]. by rewrite Hnone.
Qed.

(** X12: when the transport write of the "current" frame raises, the
    exception reaches the caller of [sendCurrentData] and the backlogs
    stay empty: the records of the failed frame are not put back. *)
Theorem sendCurrentData_failed_write_drops_backlogs (d : gmap string value) (w : world) :
  let frame : gmap string value :=
    {[ "current" := VDict (dict_update d (backlog_dict (self w))) ]} in
  raises (calls w) (Send frame) = true →
  sendCurrentData raises (VDict d) w
    = (Raise (CollaboratorError (Send frame)),
       mkWorld init_session (heap w) (calls w ++ [Send frame])).
Proof.
  intros frame Hfail. subst frame.
  unfold sendCurrentData, drain_temperatureBacklog, drain_logBacklog, drain_messageBacklog.
  unfold update, bind, get_self, put_self, ret.
  cbn [self heap calls temperatureBacklog logBacklog messageBacklog].
  rewrite _emit_run. cbn [calls]. unfold backlog_dict in *. by rewrite Hfail.
Qed.

(** *** Lifecycle *)

Lemma open_steps_no_cleanup c :
  c ∈ open_steps timelapse_current → is_unregister c = false ∧ is_unsubscribe c = false.
Proof. unfold open_steps. intros Hin. by cases_of_elem Hin. Qed.

(** X13: [on_open] does not roll back.  When one of its calls raises, the
    exception reaches the caller, the calls made are the ones before the
    failing call in program order, and none of them is an unregister or an
    unsubscribe: the registrations and subscriptions already made stay in
    place.  The session's backlogs are untouched. *)
Theorem on_open_failure_keeps_partial_registration
    (info : conn_info) (w : world) (e : exn) (w' : world) :
  on_open raises timelapse_current info w = (Raise e, w') →
  ∃ made c rest,
    open_steps timelapse_current = made ++ c :: rest ∧
    e = CollaboratorError c ∧
    calls_since w w'
      = LoggerInfo ("New connection from client: " +:+ _getRemoteAddress info)
          :: made ++ [c] ∧
    (∀ c', c' ∈ calls_since w w' → is_unregister c' = false ∧ is_unsubscribe c' = false) ∧
    self w' = self w.
Proof.
  rewrite on_open_steps.
  intros (made & c & rest & Hsplit & -> & _ & ->)%run_steps_raise.
  rewrite with_calls_app, calls_since_with_calls.
  exists made, c, rest. split; [done|]. split; [done|]. split; [done|]. split; [|done].
  intros c' Hin. cbn [app] in Hin. apply elem_of_cons in Hin as [->|Hin]; [done|].
  apply open_steps_no_cleanup. rewrite Hsplit, cons_middle, app_assoc.
  apply elem_of_app. by left.
Qed.

(** X14: [on_close] removes exactly what [on_open] set up on the event
    bus.  After an [on_open] that returned, every event published on
    "SlicingStarted", "SlicingDone" or "SlicingFailed" makes the session
    write one "updateTrigger" frame that names the event and carries its
    payload; after an [on_close] that then returned, no published event
    reaches the session any more. *)
Theorem subscriptions_live_from_open_to_close
    (info : conn_info) (w w1 w1' w2 : world) (topic : string) (payload : value) (w3 : world) :
  on_open raises timelapse_current info w = (Return tt, w1) →
  on_close raises w1' = (Return tt, w2) →
  let opened := calls_since w w1 in
  let closed := calls_since w w1 ++ calls_since w1' w2 in
  EventBus.publish raises (EventBus.after opened) "SlicingStarted" payload w3
    = with_calls w3 [Send {[ "updateTrigger" :=
        VDict {[ "type" := VStr "slicingStarted"; "payload" := payload ]} ]}] ∧
  EventBus.publish raises (EventBus.after opened) "SlicingDone" payload w3
    = with_calls w3 [Send {[ "updateTrigger" :=
        VDict {[ "type" := VStr "slicingDone"; "payload" := payload ]} ]}] ∧
  EventBus.publish raises (EventBus.after opened) "SlicingFailed" payload w3
    = with_calls w3 [Send {[ "updateTrigger" :=
        VDict {[ "type" := VStr "slicingFailed"; "payload" := payload ]} ]}] ∧
  EventBus.publish raises (EventBus.after closed) topic payload w3 = w3.
Proof.
  intros ->%on_open_return_inv ->%on_close_return_inv opened closed. subst opened closed.
  rewrite !calls_since_with_calls.
  assert (EventBus.after (open_calls info timelapse_current)
          = [("MovieDone", onMovieDone); ("SlicingStarted", onSlicingStarted);
             ("SlicingDone", onSlicingDone); ("SlicingFailed", onSlicingFailed)]) as Hopen
    by reflexivity.
  assert (EventBus.after (open_calls info timelapse_current ++ close_calls) = []) as Hclosed
    by reflexivity.
  rewrite Hopen, Hclosed. unfold EventBus.publish.
  repeat split.
  - cbn [EventBus.subscribed_to omap list_omap fst snd String.eqb Ascii.eqb Bool.eqb
           fold_left run_handler].
    unfold _onSlicingStarted, sendUpdateTrigger. by rewrite _emit_run.
  - cbn [EventBus.subscribed_to omap list_omap fst snd String.eqb Ascii.eqb Bool.eqb
           fold_left run_handler].
    unfold _onSlicingDone, sendUpdateTrigger. by rewrite _emit_run.
  - cbn [EventBus.subscribed_to omap list_omap fst snd String.eqb Ascii.eqb Bool.eqb
           fold_left run_handler].
    unfold _onSlicingFailed, sendUpdateTrigger. by rewrite _emit_run.
Qed.

End MoreFacts.

(** *** [LargeResponseHandler] *)

Lemma CHUNK_SIZE_pos : (0 < CHUNK_SIZE)%nat.
Proof. unfold CHUNK_SIZE. lia. Qed.

Lemma str_take_empty n s : (0 < n)%nat → str_take n s = "" → s = "".
Proof. destruct n; [lia|]. by destruct s. Qed.

Lemma str_take_le n s : (String.length (str_take n s) ≤ n)%nat.
Proof.
  revert s. induction n as [|n IH]; intros [|a s]; simpl; try lia.
  specialize (IH s). lia.
Qed.

Lemma str_nonempty_length s : s ≠ "" → (0 < String.length s)%nat.
Proof. destruct s; [done|]. simpl. lia. Qed.

Lemma written_app acts acts' : written (acts ++ acts') = written acts +:+ written acts'.
Proof.
  induction acts as [|a acts IH]; [done|].
  destruct a; cbn [app written]; try done. by rewrite IH, str_app_assoc.
Qed.

Lemma written_silent acts : forallb (fun a => negb (is_write a)) acts = true → written acts = "".
Proof.
  induction acts as [|a acts IH]; [done|]. cbn [forallb]. intros [Ha Hacts]%andb_true_iff.
  destruct a; try done; by apply IH.
Qed.

(** The loop delivers the whole file when it has fuel for it. *)
Lemma send_chunks_written fuel : ∀ file,
  (String.length file < fuel)%nat → written (send_chunks fuel file) = file.
Proof.
  induction fuel as [|fuel IH]; intros file Hfuel; [lia|].
  cbn [send_chunks]. destruct (String.eqb_spec (str_take CHUNK_SIZE file) "") as [Hempty|Hdata].
  - apply str_take_empty in Hempty as ->; [done|apply CHUNK_SIZE_pos].
  - cbn [written]. rewrite IH, str_take_drop; [done|].
    assert (file ≠ "") as Hfile by (intros ->; by destruct CHUNK_SIZE).
    pose proof CHUNK_SIZE_pos. apply str_nonempty_length in Hfile.
    destruct (decide (CHUNK_SIZE ≤ String.length file)%nat).
    + rewrite str_drop_length by done. lia.
    + assert (str_drop CHUNK_SIZE file = "") as ->; [|simpl; lia].
      clear -n. revert n. generalize CHUNK_SIZE. intros k. revert file.
      induction k as [|k IHk]; intros [|a file]; simpl; try done; try lia.
      intros Hk. apply IHk. lia.
Qed.

Lemma send_chunks_well_chunked fuel : ∀ file, well_chunked (send_chunks fuel file).
Proof.
  induction fuel as [|fuel IH]; intros file; [done|].
  cbn [send_chunks]. destruct (String.eqb_spec (str_take CHUNK_SIZE file) "") as [|Hdata]; [done|].
  cbn [well_chunked]. split; [|apply IH].
  split; [by apply str_nonempty_length|apply str_take_le].
Qed.

Lemma well_chunked_app acts acts' :
  forallb (fun a => negb (is_write a)) acts = true →
  well_chunked acts' → well_chunked (acts ++ acts').
Proof.
  induction acts as [|a acts IH]; [done|]. cbn [forallb]. intros [Ha Hacts]%andb_true_iff ?.
  destruct a; try done; cbn [app well_chunked]; by apply IH.
Qed.

Lemma plain_headers_silent hs :
  Forall plain_header hs → forallb (fun a => negb (is_write a)) hs = true.
Proof. induction 1 as [|a hs Ha _ IH]; [done|]. cbn [forallb]. by destruct a. Qed.

(** The ways [get] can end. *)
Lemma get_inv env path include_body acts out :
  get env path include_body = (acts, out) →
  (acts = [] ∧ ∃ status log_message, out = Raised (HTTPError status log_message)) ∨
  (acts = [redirect (request_path env +:+ "/")] ∧ out = Returned ∧
   startswith (abspath_join env (root env) (parse_url_path env path) +:+ sep env)
              (root env) = true) ∨
  (∃ file headers,
     startswith (abspath_join env (root env) (parse_url_path env path) +:+ sep env)
                (root env) = true ∧
     exists_ env file = true ∧ isfile env file = true ∧
     Forall plain_header headers ∧
     ((acts = headers ++ [set_status 304] ∧ out = Returned ∧
       ∃ ims_value if_since,
         if_modified_since env = Some ims_value ∧
         mktime_parsedate env ims_value = Some if_since ∧
         (st_mtime env file ≤ if_since)%Z) ∨
      (acts = headers ∧
       (out = Raised TypeError ∨ out = Raised AssertionError ∨ out = Raised IOError)) ∨
      (include_body = false ∧ request_method env = "HEAD" ∧
       acts = headers ++ [set_header "Content-Length" (HNum (st_size env file))] ∧
       out = Returned) ∨
      (include_body = true ∧
       ∃ content, open_rb env file = Some content ∧
                  acts = headers ++ send_chunks (S (String.length content)) content ∧
                  out = Returned))).
Proof.
  unfold get.
  set (path' := parse_url_path env path).
  set (abspath := abspath_join env (root env) path').
  destruct (startswith (abspath +:+ sep env) (root env)) eqn:Hroot;
    unfold negb at 1; cbv iota;
    [|intros Hget; apply pair_equal_spec in Hget as [<- <-]; left; eauto].
  set (located := match default_filename env with Some _ => _ | None => _ end).
  destruct located as [url|file] eqn:Hlocated.
  { intros Hget; apply pair_equal_spec in Hget as [<- <-]. right. left.
    split; [|done]. f_equal. subst located. repeat case_match; congruence. }
  clear located Hlocated.
  destruct (exists_ env file) eqn:Hexists; unfold negb at 1; cbv iota;
    [|intros Hget; apply pair_equal_spec in Hget as [<- <-]; left; eauto].
  destruct (isfile env file) eqn:Hisfile; unfold negb at 1; cbv iota;
    [|intros Hget; apply pair_equal_spec in Hget as [<- <-]; left; eauto].
  set (headers := [set_header "Last-Modified" _] ++ _).
  assert (Forall plain_header headers) as Hheaders.
  { subst headers. unfold set_extra_headers.
    repeat case_match; repeat (apply Forall_cons_2 || apply Forall_app_2 || apply Forall_nil_2);
      done. }
  clearbody headers. intros Hget. right. right. exists file, headers.
  split; [done|]. split; [done|]. split; [done|]. split; [done|].
  assert ((if negb include_body
           then if String.eqb (request_method env) "HEAD"
                then (headers ++ [set_header "Content-Length" (HNum (st_size env file))],
                      Returned)
                else (headers, Raised AssertionError)
           else match open_rb env file with
                | Some content =>
                    (headers ++ send_chunks (S (String.length content)) content, Returned)
                | None => (headers, Raised IOError)
                end) = (acts, out) →
          (acts = headers ∧
           (out = Raised TypeError ∨ out = Raised AssertionError ∨ out = Raised IOError)) ∨
          (include_body = false ∧ request_method env = "HEAD" ∧
           acts = headers ++ [set_header "Content-Length" (HNum (st_size env file))] ∧
           out = Returned) ∨
          (include_body = true ∧
           ∃ content, open_rb env file = Some content ∧
                      acts = headers ++ send_chunks (S (String.length content)) content ∧
                      out = Returned)) as Hbody.
  { destruct include_body; unfold negb; cbv iota.
    - destruct (open_rb env file) as [content|]; intros Hb; apply pair_equal_spec in Hb as [<- <-].
      + right. right. split; [reflexivity|]. exists content. repeat split.
      + left. split; [reflexivity|]. right. right. reflexivity.
    - destruct (String.eqb_spec (request_method env) "HEAD"); intros Hb;
        apply pair_equal_spec in Hb as [<- <-].
      + right. left. repeat split. assumption.
      + left. split; [reflexivity|]. right. left. reflexivity. }
  destruct (if_modified_since env) as [ims_value|]; [|right; apply Hbody, Hget].
  destruct (mktime_parsedate env ims_value) as [if_since|] eqn:Hparse.
  - destruct (Z.leb_spec (st_mtime env file) if_since); [|right; apply Hbody, Hget].
    apply pair_equal_spec in Hget as [<- <-]. left. split; [reflexivity|]. split; [reflexivity|].
    exists ims_value, if_since. repeat split; assumption.
  - apply pair_equal_spec in Hget as [<- <-]. right. left. split; [reflexivity|]. left. reflexivity.
Qed.

Lemma send_chunks_only_writes fuel : ∀ file,
  Forall (fun a => match a with write _ | flush => True | _ => False end)
         (send_chunks fuel file).
Proof.
  induction fuel as [|fuel IH]; intros file; [apply Forall_nil_2|].
  cbn [send_chunks]. destruct (String.eqb (str_take CHUNK_SIZE file) ""); [apply Forall_nil_2|].
  apply Forall_cons_2; [done|]. apply Forall_cons_2; [done|]. apply IH.
Qed.

Lemma plain_headers_not_in hs a :
  Forall plain_header hs → ¬ plain_header a → a ∉ hs.
Proof. intros Hhs Ha Hin. by apply (proj1 (Forall_forall _ _) Hhs) in Hin. Qed.

(** X15: a GET that is answered with a body delivers the file: when [get]
    with [include_body] returns without a redirect and without a 304, the
    bytes written are exactly the content of an existing regular file, and
    the handler has set no [Content-Length] header. *)
Theorem get_delivers_file_content (env : static_env) (path : string) (acts : list action) :
  get env path true = (acts, Returned) →
  (∀ url, redirect url ∉ acts) →
  set_status 304 ∉ acts →
  ∃ file content,
    exists_ env file = true ∧ isfile env file = true ∧
    open_rb env file = Some content ∧
    written acts = content ∧
    ∀ v, set_header "Content-Length" v ∉ acts.
Proof.
  intros Hget Hredirect H304.
  apply get_inv in Hget
    as [(_ & ? & ? & [=])|[(-> & _)|(file & headers & _ & Hex & Hfile & Hhs & Hcase)]].
  { exfalso. apply (Hredirect (request_path env +:+ "/")), list_elem_of_here. }
  destruct Hcase as [(-> & _)|[(_ & [[=]|[[=]|[=]]])|[([=] & _)|(_ & content & Hopen & -> & _)]]].
  { exfalso. apply H304, elem_of_app. right. apply list_elem_of_here. }
  exists file, content. split; [done|]. split; [done|]. split; [done|]. split.
  - rewrite written_app, written_silent by (by apply plain_headers_silent).
    apply send_chunks_written. lia.
  - intros v [Hin|Hin]%elem_of_app.
    + revert Hin. apply plain_headers_not_in; [done|]. by intros Hne.
    + pose proof (send_chunks_only_writes (S (String.length content)) content) as Hw.
      by apply (proj1 (Forall_forall _ _) Hw) in Hin.
Qed.

(** X16: whatever [get] does, a body goes out in chunks: every write
    carries at least one and at most [CHUNK_SIZE] bytes and is directly
    followed by a flush. *)
Theorem get_writes_flushed_chunks (env : static_env) (path : string) (include_body : bool) :
  well_chunked (fst (get env path include_body)).
Proof.
  destruct (get env path include_body) as [acts out] eqn:Hget. cbn [fst].
  apply get_inv in Hget
    as [(-> & _)|[(-> & _)|(file & headers & _ & _ & _ & Hhs & Hcase)]]; [done..|].
  apply plain_headers_silent in Hhs.
  destruct Hcase as [(-> & _)|[(-> & _)|[(_ & _ & -> & _)|(_ & content & _ & -> & _)]]].
  - by apply well_chunked_app.
  - rewrite <- (app_nil_r headers). by apply well_chunked_app.
  - by apply well_chunked_app.
  - apply well_chunked_app; [done|]. apply send_chunks_well_chunked.
Qed.

(** X17: without [include_body] no body byte is written.  When such a
    call returns without a redirect and without a 304, the request method
    is HEAD and [Content-Length] has been set to the size of an existing
    regular file; with any other method the [assert] fails. *)
Theorem get_without_body_sets_length
    (env : static_env) (path : string) (acts : list action) (out : get_outcome) :
  get env path false = (acts, out) →
  written acts = "" ∧
  (out = Returned → (∀ url, redirect url ∉ acts) → set_status 304 ∉ acts →
   request_method env = "HEAD" ∧
   ∃ file, exists_ env file = true ∧ isfile env file = true ∧
           set_header "Content-Length" (HNum (st_size env file)) ∈ acts).
Proof.
  intros Hget.
  apply get_inv in Hget
    as [(-> & ? & ? & ->)|[(-> & -> & _)|(file & headers & _ & Hex & Hfile & Hhs & Hcase)]].
  { split; [done|]. intros [=]. }
  { split; [done|]. intros _ Hredirect. exfalso.
    apply (Hredirect (request_path env +:+ "/")), list_elem_of_here. }
  pose proof (plain_headers_silent _ Hhs) as Hsilent.
  destruct Hcase as [(-> & _)|[(-> & Hout)|[(_ & Hhead & -> & _)|([=] & _)]]].
  - split; [by rewrite written_app, written_silent|].
    intros _ _ H304. exfalso. apply H304, elem_of_app. right. apply list_elem_of_here.
  - split; [by apply written_silent|]. intros ->. by destruct Hout as [[=]|[[=]|[=]]].
  - split; [by rewrite written_app, written_silent|].
    intros _ _ _. split; [done|]. exists file. split; [done|]. split; [done|].
    apply elem_of_app. right. apply list_elem_of_here.
Qed.

(** X18: [get] refuses before it answers.  An [HTTPError] (403 outside the
    root or not a file, 404 missing) is raised before any header is set or
    byte written, and every call that does anything to the response has
    passed the root check: the resolved path followed by the separator
    starts with [self.root]. *)
Theorem get_refuses_before_answering
    (env : static_env) (path : string) (include_body : bool)
    (acts : list action) (out : get_outcome) :
  get env path include_body = (acts, out) →
  (∀ status log_message, out = Raised (HTTPError status log_message) → acts = []) ∧
  (acts ≠ [] →
   startswith (abspath_join env (root env) (parse_url_path env path) +:+ sep env)
              (root env) = true).
Proof.
  intros Hget.
  apply get_inv in Hget
    as [(-> & _)|[(-> & -> & Hroot)|(file & headers & Hroot & _ & _ & _ & Hcase)]];
    [done|done|].
  split; [|done]. intros status log_message ->.
  destruct Hcase as [(_ & [=] & _)|[(_ & [[=]|[[=]|[=]]])|[(_ & _ & _ & [=])|(_ & ? & _ & _ & [=])]]].
Qed.

(** X19: a 304 answer has no body and no [Content-Length], for GET and
    HEAD alike.  Whenever [get] sets status 304 it returns normally, the
    status is the last thing it does, and the [If-Modified-Since] date is
    at or after the modification time of the file. *)
Theorem get_not_modified_has_no_body
    (env : static_env) (path : string) (include_body : bool)
    (acts : list action) (out : get_outcome) :
  get env path include_body = (acts, out) →
  set_status 304 ∈ acts →
  out = Returned ∧ last acts = Some (set_status 304) ∧ written acts = "" ∧
  (∀ v, set_header "Content-Length" v ∉ acts) ∧
  ∃ file ims_value if_since,
    isfile env file = true ∧
    if_modified_since env = Some ims_value ∧
    mktime_parsedate env ims_value = Some if_since ∧
    (st_mtime env file ≤ if_since)%Z.
Proof.
  intros Hget H304.
  apply get_inv in Hget
    as [(-> & _)|[(-> & _)|(file & headers & _ & _ & Hfile & Hhs & Hcase)]].
  { by apply elem_of_nil in H304. }
  { apply list_elem_of_singleton in H304. discriminate H304. }
  assert (set_status 304 ∉ headers) as Hnot
    by (apply plain_headers_not_in; [done|by intros ?]).
  pose proof (plain_headers_silent _ Hhs) as Hsilent.
  destruct Hcase as [(-> & -> & ims & t & Hims & Hparse & Hle)
                    |[(-> & _)|[(_ & _ & -> & _)|(_ & content & _ & -> & _)]]].
  - split; [done|]. split; [by rewrite last_snoc|].
    split; [by rewrite written_app, written_silent|].
    split; [|by exists file, ims, t].
    intros v [Hin|Hin]%elem_of_app.
    + revert Hin. apply plain_headers_not_in; [done|]. by intros Hne.
    + apply list_elem_of_singleton in Hin. discriminate Hin.
  - done.
  - apply elem_of_app in H304 as [?|Hin]; [done|].
    apply list_elem_of_singleton in Hin. discriminate Hin.
  - apply elem_of_app in H304 as [?|Hin]; [done|].
    pose proof (send_chunks_only_writes (S (String.length content)) content) as Hw.
    by apply (proj1 (Forall_forall _ _) Hw) in Hin.
Qed.

(** *** [restricted_access] and [api_access] *)

(** X20: [api_access] refuses nobody.  A request that carries an [apikey]
    value reaches the wrapped view whatever the key is and whether or not
    the API is enabled: the 401 and 403 responses are built and dropped.
    The view is called as [func(args, kwargs)]. *)
Theorem api_access_never_refuses (env : access_env) (apikey : string) :
  request_values env !! "apikey" = Some apikey →
  snd (api_access env) = CallViewPacked ∧
  (api_enabled env = false → ("API disabled", 401%Z) ∈ fst (api_access env)) ∧
  (Some apikey ≠ api_key env → ("Invalid API key", 403%Z) ∈ fst (api_access env)).
Proof.
  intros Hkey. unfold api_access. rewrite Hkey. cbn [fst snd]. split; [done|]. split.
  - intros ->. apply elem_of_app. left. apply list_elem_of_here.
  - intros Hne. apply elem_of_app. right. rewrite decide_False by done.
    apply list_elem_of_here.
Qed.

(** X21: the only way [api_access] does not call the view is the lookup
    [request.values["apikey"]] failing on a request without [apikey]; it
    never answers with a response of its own. *)
Theorem api_access_fails_only_without_key (env : access_env) :
  match snd (api_access env) with
  | CallViewPacked => is_Some (request_values env !! "apikey")
  | AccessRaised e => e = BadRequestKey "apikey" ∧ request_values env !! "apikey" = None
  | _ => False
  end.
Proof. unfold api_access. destruct (request_values env !! "apikey"); cbn [snd]; eauto. Qed.

(** X22: the only response [restricted_access] returns by itself is the
    first-run 403.  In particular an unknown API key is never answered
    with "Invalid API key": that response is built and dropped. *)
Theorem restricted_access_only_responds_first_run
    (apiEnabled : bool) (env : access_env) (body : string) (status : Z) :
  snd (restricted_access apiEnabled env) = Respond body status →
  body = "OctoPrint isn't setup yet" ∧ status = 403%Z ∧ firstRun env = true ∧
  (∀ um, userManager env = Some um → hasBeenCustomized um = false).
Proof.
  unfold restricted_access.
  destruct (firstRun env); cbn [andb].
  - destruct (userManager env) as [um|] eqn:Hum.
    + destruct (hasBeenCustomized um) eqn:Hc; cbn [negb].
      * repeat case_match; cbn [snd]; intros [=].
      * cbn [snd]. intros [= <- <-]. split; [done|]. split; [done|]. split; [done|].
        intros um' Hum'. by injection Hum' as <-.
    + cbn [snd]. intros [= <- <-]. split; [done|]. split; [done|]. split; [done|].
      intros um' Hum'. discriminate Hum'.
  - repeat case_match; cbn [snd]; intros [=].
Qed.

(** X23: [restricted_access] calls the view directly only for a key it
    has checked: API access is enabled globally and for the view, the
    request carries an [apikey], that key is the master key (identity
    [ApiUser]) or a key [findUser] knows (identity: the user found), and
    [login_user] accepted that user. *)
Theorem restricted_access_calls_view_for_known_key
    (apiEnabled : bool) (env : access_env) (identity : user) :
  snd (restricted_access apiEnabled env) = CallView identity →
  api_enabled env = true ∧ apiEnabled = true ∧
  login_user env (Some identity) = Some true ∧
  ∃ apikey,
    request_values env !! "apikey" = Some apikey ∧
    ((Some apikey = api_key env ∧ identity = ApiUser) ∨
     (Some apikey ≠ api_key env ∧
      ∃ um, userManager env = Some um ∧ findUser um apikey = Some identity)).
Proof.
  unfold restricted_access.
  destruct (firstRun env && _); [cbn [snd]; discriminate|].
  destruct (api_enabled env); [|cbn [andb snd]; discriminate].
  destruct apiEnabled; [|cbn [andb snd]; discriminate].
  cbn [andb].
  destruct (request_values env !! "apikey") as [apikey|]; [|cbn [snd]; discriminate].
  destruct (decide (Some apikey = api_key env)) as [Hmaster|Hother].
  - destruct (login_user env (Some ApiUser)) as [[]|] eqn:Hlogin; cbn [snd];
      [|discriminate..].
    intros [= <-]. split; [done|]. split; [done|]. split; [done|].
    exists apikey. split; [done|]. by left.
  - destruct (userManager env) as [um|] eqn:Hum; [|cbn [snd]; discriminate].
    destruct (findUser um apikey) as [u|] eqn:Hfind.
    + destruct (login_user env (Some u)) as [[]|] eqn:Hlogin; cbn [snd];
        [|discriminate..].
      intros [= <-]. split; [done|]. split; [done|]. split; [done|].
      exists apikey. split; [done|]. right. split; [done|]. by exists um.
    + destruct (login_user env None) as [[]|]; cbn [snd]; discriminate.
Qed.

(** X24: an [apikey] that is neither the master key nor known to
    [findUser] is not rejected: the "Invalid API key" 403 is built and
    dropped, [login_user(None)] is called, and when that answers false the
    request goes on to [login_required], as if no key had been sent. *)
Theorem restricted_access_unknown_key_falls_through
    (env : access_env) (um : user_manager) (apikey : string) :
  firstRun env = false →
  api_enabled env = true →
  request_values env !! "apikey" = Some apikey →
  Some apikey ≠ api_key env →
  userManager env = Some um →
  findUser um apikey = None →
  login_user env None = Some false →
  restricted_access true env = ([("Invalid API key", 403%Z)], LoginRequired).
Proof.
  intros Hfirst Hapi Hkey Hne Hum Hfind Hlogin. unfold restricted_access.
  rewrite Hfirst, Hapi, Hkey. cbn [andb].
  by rewrite decide_False, Hum, Hfind, Hlogin by done.
Qed.

(** * Concrete runs of the rest of the module *)

(** X1, witness. *)
Lemma _getRemoteAddress_first_forwarded_entry_witness :
  contains "," (_getRemoteAddress proxied_client) = false ∧
  ("10.0.0.7, 192.168.1.1" = _getRemoteAddress proxied_client ∨
   ∃ rest, "10.0.0.7, 192.168.1.1" = _getRemoteAddress proxied_client +:+ "," +:+ rest) ∧
  _getRemoteAddress proxied_client = _getRemoteAddress (mkInfo (headers proxied_client) "").
Proof.
  apply (_getRemoteAddress_first_forwarded_entry proxied_client "10.0.0.7, 192.168.1.1").
  reflexivity.
Defined.

(** X2, witness. *)
Lemma redirectToTornado_replaces_from_marker_witness :
  ∃ base rest,
    "http://h/octo/ajax/gcodefiles/load" = base +:+ ("/octo" +:+ "/ajax") +:+ rest ∧
    find "http://h/octo/ajax/gcodefiles/load" ("/octo" +:+ "/ajax")
      = Z.of_nat (String.length base) ∧
    redirectToTornado "/octo" "http://h/octo/ajax/gcodefiles/load" "/downloads/a.gcode"
      = base +:+ "/downloads/a.gcode".
Proof.
  apply (redirectToTornado_replaces_from_marker
           "/octo" "http://h/octo/ajax/gcodefiles/load" "/downloads/a.gcode").
  - reflexivity.
  - by vm_compute.
Defined.

(** X3, witness. *)
Lemma redirectToTornado_keeps_query_witness :
  ∃ pre query,
    "http://h/octo/ajax/load?a=1?b=2" = pre +:+ "?" +:+ query ∧
    contains "?" query = false ∧
    redirectToTornado "/octo" "http://h/octo/ajax/load?a=1?b=2" "/t"
      = slice_to "http://h/octo/ajax/load?a=1?b=2"
                 (find "http://h/octo/ajax/load?a=1?b=2" ("/octo" +:+ "/ajax"))
          +:+ "/t" +:+ "?" +:+ query.
Proof.
  apply (redirectToTornado_keeps_query "/octo" "http://h/octo/ajax/load?a=1?b=2" "/t").
  reflexivity.
Defined.

(** X4, witness: [url_for("index")] is "/", so the marker is "//ajax". *)
Lemma redirectToTornado_marker_absent_witness :
  redirectToTornado "/" ("http://h/ajax/loa" +:+ String "d" "") "/t"
    = "http://h/ajax/loa" +:+ "/t".
Proof.
  apply (redirectToTornado_marker_absent "/" "http://h/ajax/loa" "/t" "d"); reflexivity.
Defined.

(** X5, witness. *)
Lemma ReverseProxied_transparent_without_configuration_witness :
  ReverseProxied_call (mkProxySettings None (Some ""))
    {[ "PATH_INFO" := "/api/state"; "HTTP_X_SCHEME" := "" ]}
  = AppCalled {[ "PATH_INFO" := "/api/state"; "HTTP_X_SCHEME" := "" ]}.
Proof.
  apply (ReverseProxied_transparent_without_configuration
           (mkProxySettings None (Some ""))
           {[ "PATH_INFO" := "/api/state"; "HTTP_X_SCHEME" := "" ]}); reflexivity.
Defined.

(** X6, witness: the script name comes from the [baseUrl] setting. *)
Lemma ReverseProxied_splits_path_witness :
  ∃ environ',
    ReverseProxied_call (mkProxySettings (Some "/octo") None)
      {[ "PATH_INFO" := "/octo" +:+ "/api/state" ]} = AppCalled environ' ∧
    environ' !! "SCRIPT_NAME" = Some "/octo" ∧
    environ' !! "PATH_INFO" = Some "/api/state".
Proof.
  apply (ReverseProxied_splits_path (mkProxySettings (Some "/octo") None)
           {[ "PATH_INFO" := "/octo" +:+ "/api/state" ]} "/octo" "/api/state").
  - right. split; reflexivity.
  - discriminate.
  - reflexivity.
Defined.

(** X7, witness. *)
Lemma ReverseProxied_headers_override_settings_witness :
  ReverseProxied_call (mkProxySettings (Some "/a") (Some "http"))
    {[ "HTTP_X_SCRIPT_NAME" := "/octo"; "HTTP_X_SCHEME" := "https"; "PATH_INFO" := "/octo/x" ]}
  = ReverseProxied_call (mkProxySettings None None)
    {[ "HTTP_X_SCRIPT_NAME" := "/octo"; "HTTP_X_SCHEME" := "https"; "PATH_INFO" := "/octo/x" ]}.
Proof.
  apply (ReverseProxied_headers_override_settings
           (mkProxySettings (Some "/a") (Some "http")) (mkProxySettings None None)
           {[ "HTTP_X_SCRIPT_NAME" := "/octo"; "HTTP_X_SCHEME" := "https";
              "PATH_INFO" := "/octo/x" ]}); discriminate.
Defined.

(** X9, witness. *)
Lemma ReverseProxied_environ_frame_witness :
  let environ : gmap string string :=
    {[ "HTTP_X_SCRIPT_NAME" := "/octo"; "PATH_INFO" := "/octo/x"; "REQUEST_METHOD" := "GET" ]} in
  let environ' : gmap string string :=
    <["PATH_INFO" := "/x"]> (<["SCRIPT_NAME" := "/octo"]> environ) in
  (∀ k, k ∉ ["SCRIPT_NAME"; "PATH_INFO"; "wsgi.url_scheme"] →
        environ' !! k = environ !! k) ∧
  (environ' !! "PATH_INFO" = environ !! "PATH_INFO" ∨
   ∃ name p p', environ' !! "SCRIPT_NAME" = Some name ∧
                environ !! "PATH_INFO" = Some p ∧
                environ' !! "PATH_INFO" = Some p' ∧ p = name +:+ p').
Proof.
  intros environ environ'.
  apply (ReverseProxied_environ_frame (mkProxySettings None None) environ environ').
  reflexivity.
Defined.


(** X11, witness. *)
Lemma sendCurrentData_non_mapping_drops_backlogs_witness :
  sendCurrentData never_raises (VStr "printing") (mkWorld (mkSession [sample] [] []) ∅ [])
    = (Raise (AttributeError "update"), mkWorld init_session ∅ []).
Proof.
  apply (sendCurrentData_non_mapping_drops_backlogs never_raises (VStr "printing")
           (mkWorld (mkSession [sample] [] []) ∅ [])).
  reflexivity.
Defined.

(** X12, witness. *)
Lemma sendCurrentData_failed_write_drops_backlogs_witness :
  let w := mkWorld (mkSession [sample] [] []) ∅ [] in
  let frame : gmap string value :=
    {[ "current" := VDict (dict_update printing (backlog_dict (self w))) ]} in
  sendCurrentData dead_transport (VDict printing) w
    = (Raise (CollaboratorError (Send frame)),
       mkWorld init_session (heap w) (calls w ++ [Send frame])).
Proof.
  intros w.
  apply (sendCurrentData_failed_write_drops_backlogs dead_transport printing w).
  reflexivity.
Defined.

(** X13, witness: the event manager fails on the first subscribe. *)
Lemma on_open_failure_keeps_partial_registration_witness :
  let fails : list call → call → bool :=
    fun _ c => match c with Subscribe _ _ => true | _ => false end in
  let w' := snd (on_open fails VNone local_client init_world) in
  ∃ made c rest,
    open_steps VNone = made ++ c :: rest ∧
    CollaboratorError (Subscribe "MovieDone" onMovieDone) = CollaboratorError c ∧
    calls_since init_world w'
      = LoggerInfo ("New connection from client: " +:+ _getRemoteAddress local_client)
          :: made ++ [c] ∧
    (∀ c', c' ∈ calls_since init_world w' →
           is_unregister c' = false ∧ is_unsubscribe c' = false) ∧
    self w' = self init_world.
Proof.
  intros fails w'.
  apply (on_open_failure_keeps_partial_registration fails VNone local_client init_world
           (CollaboratorError (Subscribe "MovieDone" onMovieDone)) w').
  reflexivity.
Defined.

(** X14, witness. *)
Lemma subscriptions_live_from_open_to_close_witness :
  let w1 := snd (on_open never_raises VNone local_client init_world) in
  let w2 := snd (on_close never_raises w1) in
  let opened := calls_since init_world w1 in
  let closed := calls_since init_world w1 ++ calls_since w1 w2 in
  EventBus.publish never_raises (EventBus.after opened) "SlicingStarted" (VStr "a.stl") w2
    = with_calls w2 [Send {[ "updateTrigger" :=
        VDict {[ "type" := VStr "slicingStarted"; "payload" := VStr "a.stl" ]} ]}] ∧
  EventBus.publish never_raises (EventBus.after opened) "SlicingDone" (VStr "a.stl") w2
    = with_calls w2 [Send {[ "updateTrigger" :=
        VDict {[ "type" := VStr "slicingDone"; "payload" := VStr "a.stl" ]} ]}] ∧
  EventBus.publish never_raises (EventBus.after opened) "SlicingFailed" (VStr "a.stl") w2
    = with_calls w2 [Send {[ "updateTrigger" :=
        VDict {[ "type" := VStr "slicingFailed"; "payload" := VStr "a.stl" ]} ]}] ∧
  EventBus.publish never_raises (EventBus.after closed) "MovieDone" (VStr "a.stl") w2 = w2.
Proof.
  intros w1 w2.
  apply (subscriptions_live_from_open_to_close never_raises VNone local_client
           init_world w1 w1 w2 "MovieDone" (VStr "a.stl") w2); reflexivity.
Defined.

(** X15, witness: a GET of the one file. *)
Lemma get_delivers_file_content_witness :
  ∃ file content,
    exists_ (one_file_env "GET" None) file = true ∧
    isfile (one_file_env "GET" None) file = true ∧
    open_rb (one_file_env "GET" None) file = Some content ∧
    written (fst (get (one_file_env "GET" None) "a.gcode" true)) = content ∧
    ∀ v, set_header "Content-Length" v ∉ fst (get (one_file_env "GET" None) "a.gcode" true).
Proof.
  apply (get_delivers_file_content (one_file_env "GET" None) "a.gcode"
           (fst (get (one_file_env "GET" None) "a.gcode" true))).
  - vm_compute. reflexivity.
  - intros url Hin. vm_compute in Hin. cases_of_elem Hin.
  - intros Hin. vm_compute in Hin. cases_of_elem Hin.
Defined.

(** X17, witness: a HEAD of the one file. *)
Lemma get_without_body_sets_length_witness :
  written (fst (get (one_file_env "HEAD" None) "a.gcode" false)) = "" ∧
  (Returned = Returned →
   (∀ url, redirect url ∉ fst (get (one_file_env "HEAD" None) "a.gcode" false)) →
   set_status 304 ∉ fst (get (one_file_env "HEAD" None) "a.gcode" false) →
   request_method (one_file_env "HEAD" None) = "HEAD" ∧
   ∃ file, exists_ (one_file_env "HEAD" None) file = true ∧
           isfile (one_file_env "HEAD" None) file = true ∧
           set_header "Content-Length" (HNum (st_size (one_file_env "HEAD" None) file))
             ∈ fst (get (one_file_env "HEAD" None) "a.gcode" false)).
Proof.
  apply (get_without_body_sets_length (one_file_env "HEAD" None) "a.gcode"
           (fst (get (one_file_env "HEAD" None) "a.gcode" false)) Returned).
  vm_compute. reflexivity.
Defined.

(** X18, witness: a missing file. *)
Lemma get_refuses_before_answering_witness :
  (∀ status log_message,
     Raised (HTTPError 404 None) = Raised (HTTPError status log_message) →
     fst (get (one_file_env "GET" None) "b.gcode" true) = []) ∧
  (fst (get (one_file_env "GET" None) "b.gcode" true) ≠ [] →
   startswith (abspath_join (one_file_env "GET" None) (root (one_file_env "GET" None))
                 (parse_url_path (one_file_env "GET" None) "b.gcode")
               +:+ sep (one_file_env "GET" None))
              (root (one_file_env "GET" None)) = true).
Proof.
  apply (get_refuses_before_answering (one_file_env "GET" None) "b.gcode" true
           (fst (get (one_file_env "GET" None) "b.gcode" true))
           (Raised (HTTPError 404 None))).
  vm_compute. reflexivity.
Defined.

(** X19, witness: a conditional GET with a date after the modification
    time. *)
Lemma get_not_modified_has_no_body_witness :
  let env := one_file_env "GET" (Some "later") in
  let acts := fst (get env "a.gcode" true) in
  Returned = Returned ∧ last acts = Some (set_status 304) ∧ written acts = "" ∧
  (∀ v, set_header "Content-Length" v ∉ acts) ∧
  ∃ file ims_value if_since,
    isfile env file = true ∧
    if_modified_since env = Some ims_value ∧
    mktime_parsedate env ims_value = Some if_since ∧
    (st_mtime env file ≤ if_since)%Z.
Proof.
  intros env acts.
  apply (get_not_modified_has_no_body env "a.gcode" true acts Returned).
  - vm_compute. reflexivity.
  - vm_compute. elem_of_concrete.
Defined.

(** X20, witness: a wrong key, with the API disabled. *)
Lemma api_access_never_refuses_witness :
  let env := sample_access_env {[ "apikey" := "guess" ]} false in
  snd (api_access env) = CallViewPacked ∧
  (api_enabled env = false → ("API disabled", 401%Z) ∈ fst (api_access env)) ∧
  (Some "guess" ≠ api_key env → ("Invalid API key", 403%Z) ∈ fst (api_access env)).
Proof.
  intros env. apply (api_access_never_refuses env "guess"). reflexivity.
Defined.

(** X22, witness: first run, user manager not customised. *)
Lemma restricted_access_only_responds_first_run_witness :
  let env := mkAccessEnv true (Some (mkUserManager false (fun _ => None))) true
               (Some "master") {[ "apikey" := "master" ]} (fun _ => Some true) in
  "OctoPrint isn't setup yet" = "OctoPrint isn't setup yet" ∧ 403%Z = 403%Z ∧
  firstRun env = true ∧
  (∀ um, userManager env = Some um → hasBeenCustomized um = false).
Proof.
  intros env.
  apply (restricted_access_only_responds_first_run true env
           "OctoPrint isn't setup yet" 403%Z).
  reflexivity.
Defined.

(** X23, witness: a stored user's key. *)
Lemma restricted_access_calls_view_for_known_key_witness :
  let env := sample_access_env {[ "apikey" := "k-alice" ]} true in
  api_enabled env = true ∧ true = true ∧
  login_user env (Some (StoredUser "alice")) = Some true ∧
  ∃ apikey,
    request_values env !! "apikey" = Some apikey ∧
    ((Some apikey = api_key env ∧ StoredUser "alice" = ApiUser) ∨
     (Some apikey ≠ api_key env ∧
      ∃ um, userManager env = Some um ∧ findUser um apikey = Some (StoredUser "alice"))).
Proof.
  intros env.
  apply (restricted_access_calls_view_for_known_key true env (StoredUser "alice")).
  reflexivity.
Defined.

(** X24, witness: an unknown key. *)
Lemma restricted_access_unknown_key_falls_through_witness :
  restricted_access true (sample_access_env {[ "apikey" := "guess" ]} true)
    = ([("Invalid API key", 403%Z)], LoginRequired).
Proof.
  apply (restricted_access_unknown_key_falls_through
           (sample_access_env {[ "apikey" := "guess" ]} true)
           (mkUserManager true
              (fun k => if String.eqb k "k-alice" then Some (StoredUser "alice") else None))
           "guess"); try reflexivity.
  discriminate.
Defined.
